(** * script_for_github_repo_stats: a shallow embedding and its properties

    The program is one Python file.  It validates its command line
    ([check_url], [check_date]), builds query strings ([make_params]),
    downloads paginated JSON ([get_items_list]) and counts
    ([get_top_contributors], [get_stats]).

    Python values are embedded as the inductive [value]; an exception is
    the [Raise] branch of [result].  Strings are Rocq strings whose
    characters stand for the code points 0..255. *)

From Stdlib Require Import List String Ascii ZArith Bool Lia Arith.
From Stdlib Require Import DecimalString.
From Stdlib Require Import Permutation Sorted.
Import ListNotations.

Set Warnings "-register-all".

Local Open Scope string_scope.
Local Open Scope Z_scope.

(** ** Python values and exceptions *)

Module Py.

(** The values [json.loads] produces (numbers restricted to integers). *)
Inductive value : Type :=
| VNone
| VBool (b : bool)
| VInt (z : Z)
| VStr (s : string)
| VList (l : list value)
| VDict (kvs : list (string * value)).

(** The exceptions the program can end with.  [ArgumentTypeError] is the
    only one the script raises itself; the others come from the
    interpreter and the libraries and are never caught. *)
Inductive exn : Type :=
| ArgumentTypeError (msg : string)
| TypeError
| AttributeError
| ValueError
| JSONDecodeError.

Inductive result (A : Type) : Type :=
| Ok (a : A)
| Raise (e : exn).
Arguments Ok {A} a.
Arguments Raise {A} e.

Definition bind {A B} (m : result A) (k : A -> result B) : result B :=
  match m with
  | Ok a => k a
  | Raise e => Raise e
  end.

(** An exception is classified when the script raised it on purpose. *)
Definition classified (e : exn) : bool :=
  match e with
  | ArgumentTypeError _ => true
  | _ => false
  end.

(** [bool(v)]: Python truthiness. *)
Definition truthy (v : value) : bool :=
  match v with
  | VNone => false
  | VBool b => b
  | VInt z => negb (z =? 0)
  | VStr s => negb (s =? "")%string
  | VList l => match l with [] => false | _ => true end
  | VDict kvs => match kvs with [] => false | _ => true end
  end.

(** Lookup in a dict kept in insertion order. *)
Fixpoint lookup {A} (k : string) (kvs : list (string * A)) : option A :=
  match kvs with
  | [] => None
  | (k', v) :: rest => if (k' =? k)%string then Some v else lookup k rest
  end.

(** [d.get(k, default)] on a value that is already known to be a dict. *)
Definition dict_get {A} (kvs : list (string * A)) (k : string) (default : A) : A :=
  match lookup k kvs with
  | Some v => v
  | None => default
  end.

(** [v.get(k, default)]: only dicts have the method. *)
Definition get (v : value) (k : string) (default : value) : result value :=
  match v with
  | VDict kvs => Ok (dict_get kvs k default)
  | _ => Raise AttributeError
  end.

(** [v == s] for a string literal [s]. *)
Definition eq_str (v : value) (s : string) : bool :=
  match v with
  | VStr t => (t =? s)%string
  | _ => false
  end.

(** [a < b] on [str]: lexicographic on code points. *)
Fixpoint str_lt (a b : string) : bool :=
  match a, b with
  | EmptyString, EmptyString => false
  | EmptyString, String _ _ => true
  | String _ _, EmptyString => false
  | String x a', String y b' =>
      if (nat_of_ascii x <? nat_of_ascii y)%nat then true
      else if (nat_of_ascii y <? nat_of_ascii x)%nat then false
      else str_lt a' b'
  end.

(** [s < v] where [s] is a [str]: any other right operand is a
    [TypeError]. *)
Definition lt_str_value (s : string) (v : value) : result bool :=
  match v with
  | VStr t => Ok (str_lt s t)
  | _ => Raise TypeError
  end.

(** [s.startswith(p)]. *)
Definition startswith (s p : string) : bool := String.prefix p s.

(** [str(z)] of an [int]. *)
Definition str_of_int (z : Z) : string :=
  NilZero.string_of_int (Z.to_int z).

(** [sep.join(l)]. *)
Definition join (sep : string) (l : list string) : string :=
  String.concat sep l.

(** ["{:w}".format(s)] on a [str]: left-justified, padded with spaces. *)
Fixpoint spaces (n : nat) : string :=
  match n with
  | O => ""
  | S n' => String " " (spaces n')
  end.

Definition ljust (s : string) (w : nat) : string :=
  s ++ spaces (w - String.length s).

End Py.

Import Py.

Notation "x <- m ;; k" := (bind m (fun x => k))
  (at level 61, m at next level, right associativity).

(** ** Constants of the script *)

Definition DATE_MASK : string := "%Y-%m-%dT%H:%M:%SZ".
Definition DEFAULT_BRANCH : string := "master".
Definition DEFAULT_START_DATE : string := "1970-01-01T00:00:00Z".
Definition PER_PAGE : Z := 100.

(** [BASE_URL.format(owner=..., repo=...)] and the two endpoints. *)
Definition BASE_URL (owner repo : string) : string :=
  "https://api.github.com/repos/" ++ owner ++ "/" ++ repo ++ "/".
Definition COMMITS_URL (owner repo params : string) : string :=
  BASE_URL owner repo ++ "commits" ++ params.
Definition ISSUES_URL (owner repo params : string) : string :=
  BASE_URL owner repo ++ "issues" ++ params.

Inductive item_type : Type := pull_request | issue.

Definition OLD_DAYS_NUM (t : item_type) : Z :=
  match t with
  | pull_request => 30
  | issue => 14
  end.

(** ** make_params *)

(** The values the script passes as keyword arguments: strings and the
    page size, plus the other scalars an f-string prints. *)
Inductive param : Type :=
| PNone
| PBool (b : bool)
| PInt (z : Z)
| PStr (s : string).

Definition param_truthy (v : param) : bool :=
  match v with
  | PNone => false
  | PBool b => b
  | PInt z => negb (z =? 0)
  | PStr s => negb (s =? "")%string
  end.

(** [f"{v}"]. *)
Definition param_str (v : param) : string :=
  match v with
  | PNone => "None"
  | PBool true => "True"
  | PBool false => "False"
  | PInt z => str_of_int z
  | PStr s => s
  end.

(** [[f"{k}={v}" for k, v in kwargs.items() if v]]. *)
Definition kept_pairs (kwargs : list (string * param)) : list string :=
  map (fun kv => fst kv ++ "=" ++ param_str (snd kv))
      (filter (fun kv => param_truthy (snd kv)) kwargs).

(** [kwargs] is a dict in the order the keywords were written; the
    conditional expression binds weaker than [+]. *)
Definition make_params (kwargs : list (string * param)) : string :=
  match kwargs with
  | [] => ""
  | _ => "?" ++ join "&" (kept_pairs kwargs)
  end.

(** ** Regular expressions, for [re.match] in [check_url] *)

Module Re.

Inductive regex : Type :=
| Void
| Eps
| Chr (p : ascii -> bool)
| Cat (r1 r2 : regex)
| Alt (r1 r2 : regex)
| Star (r : regex).

(** [r+] *)
Definition plus (r : regex) : regex := Cat r (Star r).

(** A literal piece of the pattern. *)
Fixpoint lit (s : string) : regex :=
  match s with
  | EmptyString => Eps
  | String c s' => Cat (Chr (Ascii.eqb c)) (lit s')
  end.

Definition newline : ascii := ascii_of_nat 10.

(** [.] without [re.DOTALL]: anything but a newline. *)
Definition dot : regex := Chr (fun c => negb (Ascii.eqb c newline)).

(** [$] as the last piece of a pattern: the end of the string, or just
    before a newline that ends the string. *)
Definition dollar : regex := Alt Eps (Chr (Ascii.eqb newline)).

Fixpoint nullable (r : regex) : bool :=
  match r with
  | Void => false
  | Eps => true
  | Chr _ => false
  | Cat r1 r2 => nullable r1 && nullable r2
  | Alt r1 r2 => nullable r1 || nullable r2
  | Star _ => true
  end.

(** Brzozowski derivative. *)
Fixpoint deriv (c : ascii) (r : regex) : regex :=
  match r with
  | Void => Void
  | Eps => Void
  | Chr p => if p c then Eps else Void
  | Cat r1 r2 =>
      if nullable r1
      then Alt (Cat (deriv c r1) r2) (deriv c r2)
      else Cat (deriv c r1) r2
  | Alt r1 r2 => Alt (deriv c r1) (deriv c r2)
  | Star r' => Cat (deriv c r') (Star r')
  end.

(** Does [r] match the whole of [s]? *)
Fixpoint matches (r : regex) (s : string) : bool :=
  match s with
  | EmptyString => nullable r
  | String c s' => matches (deriv c r) s'
  end.

(** The strings a regular expression denotes. *)
Inductive lang : regex -> string -> Prop :=
| LEps : lang Eps ""
| LChr p c : p c = true -> lang (Chr p) (String c "")
| LCat r1 r2 s1 s2 : lang r1 s1 -> lang r2 s2 -> lang (Cat r1 r2) (s1 ++ s2)
| LAltL r1 r2 s : lang r1 s -> lang (Alt r1 r2) s
| LAltR r1 r2 s : lang r2 s -> lang (Alt r1 r2) s
| LStar0 r : lang (Star r) ""
| LStarS r c s1 s2 :
    lang r (String c s1) -> lang (Star r) s2 ->
    lang (Star r) (String c s1 ++ s2).

End Re.

(** ** check_url and the owner/repo extraction of main *)

Definition in_range (lo hi c : ascii) : bool :=
  (nat_of_ascii lo <=? nat_of_ascii c)%nat && (nat_of_ascii c <=? nat_of_ascii hi)%nat.

(** The class [[a-zA-Z0-9-]]. *)
Definition name_char (c : ascii) : bool :=
  in_range "a" "z" c || in_range "A" "Z" c || in_range "0" "9" c
  || Ascii.eqb c "-".

(** ['^https://github.com/[a-zA-Z0-9-]+/[a-zA-Z0-9-]+$'].  [re.match]
    anchors at the start, so [^] adds nothing; the pattern ends in [$], so
    a match is a match of the whole string up to [$]'s optional newline. *)
Definition url_pattern : Re.regex :=
  Re.Cat (Re.lit "https://github")
    (Re.Cat Re.dot
      (Re.Cat (Re.lit "com/")
        (Re.Cat (Re.plus (Re.Chr name_char))
          (Re.Cat (Re.Chr (Ascii.eqb "/"))
            (Re.Cat (Re.plus (Re.Chr name_char)) Re.dollar))))).

Definition url_error : exn :=
  ArgumentTypeError "Url should be in https://github.com/<owner>/<repo> format".

Definition check_url (url : string) : result string :=
  if Re.matches url_pattern url then Ok url else Raise url_error.

(** [s.split(sep)] for a one-character separator. *)
Fixpoint split (sep : ascii) (s : string) : list string :=
  match s with
  | EmptyString => [""]
  | String c s' =>
      if Ascii.eqb c sep then "" :: split sep s'
      else match split sep s' with
           | h :: t => String c h :: t
           | [] => [String c ""]
           end
  end.

(** [l[a:b]] for [0 <= a <= b]. *)
Definition slice {A} (a b : nat) (l : list A) : list A :=
  firstn (b - a) (skipn a l).

(** [owner, repo = url.split("/")[3:5]]: unpacking needs exactly two
    elements. *)
Definition owner_repo (url : string) : result (string * string) :=
  match slice 3 5 (split "/" url) with
  | [owner; repo] => Ok (owner, repo)
  | _ => Raise ValueError
  end.

(** ** Dates: [datetime.strptime] with [DATE_MASK], and [timedelta.days] *)

Record datetime : Type := mkdt {
  year : Z; month : Z; day : Z; hour : Z; minute : Z; second : Z
}.

(** [\d] and the value of the digit.  Among the code points 0 to 255,
    which are all a character of this file can be, the decimal digits are
    the ten of ASCII; the digits of other scripts, which [strptime] takes
    as well, are out of reach of the model. *)
Definition digit_val (c : ascii) : option Z :=
  if in_range "0" "9" c then Some (Z.of_nat (nat_of_ascii c) - 48) else None.

(** [%Y]: [\d\d\d\d]. *)
Definition parse_Y (s : string) : option (Z * string) :=
  match s with
  | String a (String b (String c (String d rest))) =>
      match digit_val a, digit_val b, digit_val c, digit_val d with
      | Some a, Some b, Some c, Some d =>
          Some (1000 * a + 100 * b + 10 * c + d, rest)
      | _, _, _, _ => None
      end
  | _ => None
  end.

(** A numeric directive whose alternatives take two digits ([two a b]) or
    one ([one a]), the two-digit ones first.  Every directive of the mask
    is followed by a character that is no digit, so the first alternative
    that matches is the only one that can lead to a match. *)
Definition parse_field (two : Z -> Z -> bool) (one : Z -> bool)
    (s : string) : option (Z * string) :=
  match s with
  | String a s1 =>
      match digit_val a with
      | Some x =>
          match s1 with
          | String b s2 =>
              match digit_val b with
              | Some y => if two x y then Some (10 * x + y, s2)
                          else if one x then Some (x, s1) else None
              | None => if one x then Some (x, s1) else None
              end
          | EmptyString => if one x then Some (x, s1) else None
          end
      | None => None
      end
  | EmptyString => None
  end.

(** [%m]: [1[0-2]|0[1-9]|[1-9]]. *)
Definition parse_m : string -> option (Z * string) :=
  parse_field (fun x y => ((x =? 1) && (y <=? 2)) || ((x =? 0) && (1 <=? y)))
              (fun x => 1 <=? x).

(** [%d]: [3[0-1]|[1-2]\d|0[1-9]|[1-9]| [1-9]]. *)
Definition parse_d (s : string) : option (Z * string) :=
  match parse_field
          (fun x y => ((x =? 3) && (y <=? 1)) || ((1 <=? x) && (x <=? 2))
                      || ((x =? 0) && (1 <=? y)))
          (fun x => 1 <=? x) s with
  | Some r => Some r
  | None =>
      match s with
      | String " " (String b rest) =>
          match digit_val b with
          | Some y => if 1 <=? y then Some (y, rest) else None
          | None => None
          end
      | _ => None
      end
  end.

(** [%H]: [2[0-3]|[0-1]\d|\d]. *)
Definition parse_H : string -> option (Z * string) :=
  parse_field (fun x y => ((x =? 2) && (y <=? 3)) || (x <=? 1))
              (fun _ => true).

(** [%M]: [[0-5]\d|\d]. *)
Definition parse_M : string -> option (Z * string) :=
  parse_field (fun x _ => x <=? 5) (fun _ => true).

(** [%S]: [6[0-1]|[0-5]\d|\d]. *)
Definition parse_S : string -> option (Z * string) :=
  parse_field (fun x y => ((x =? 6) && (y <=? 1)) || (x <=? 5))
              (fun _ => true).

(** A literal character of the mask; the compiled pattern ignores case. *)
Definition same_letter (c d : ascii) : bool :=
  Ascii.eqb c d
  || (in_range "A" "Z" c && (nat_of_ascii d =? nat_of_ascii c + 32)%nat)
  || (in_range "a" "z" c && (nat_of_ascii c =? nat_of_ascii d + 32)%nat).

Definition expect (c : ascii) (s : string) : option string :=
  match s with
  | String d rest => if same_letter c d then Some rest else None
  | EmptyString => None
  end.

Definition is_leap (y : Z) : bool :=
  (y mod 4 =? 0) && (negb (y mod 100 =? 0) || (y mod 400 =? 0)).

Definition days_in_month (y m : Z) : Z :=
  if m =? 2 then (if is_leap y then 29 else 28)
  else if (m =? 4) || (m =? 6) || (m =? 9) || (m =? 11) then 30
  else 31.

(** The checks of the [datetime] constructor. *)
Definition valid_datetime (d : datetime) : bool :=
  (1 <=? year d) && (year d <=? 9999)
  && (1 <=? month d) && (month d <=? 12)
  && (1 <=? day d) && (day d <=? days_in_month (year d) (month d))
  && (0 <=? hour d) && (hour d <=? 23)
  && (0 <=? minute d) && (minute d <=? 59)
  && (0 <=? second d) && (second d <=? 59).

Definition obind {A B} (m : option A) (k : A -> option B) : option B :=
  match m with
  | Some a => k a
  | None => None
  end.

(** [datetime.strptime(s, DATE_MASK)]; [None] is its [ValueError].  The
    whole string has to be used up, and the fields have to make a date. *)
Definition strptime (s : string) : option datetime :=
  obind (parse_Y s) (fun '(y, s) =>
  obind (expect "-" s) (fun s =>
  obind (parse_m s) (fun '(m, s) =>
  obind (expect "-" s) (fun s =>
  obind (parse_d s) (fun '(d, s) =>
  obind (expect "T" s) (fun s =>
  obind (parse_H s) (fun '(h, s) =>
  obind (expect ":" s) (fun s =>
  obind (parse_M s) (fun '(mi, s) =>
  obind (expect ":" s) (fun s =>
  obind (parse_S s) (fun '(se, s) =>
  obind (expect "Z" s) (fun s =>
  match s with
  | EmptyString =>
      let dt := mkdt y m d h mi se in
      if valid_datetime dt then Some dt else None
  | _ => None
  end)))))))))))).

Definition date_error : exn :=
  ArgumentTypeError "Please provide date in YYYY-MM-DDTHH:MM:SSZ format".

Definition check_date (date : string) : result string :=
  match strptime date with
  | Some _ => Ok date
  | None => Raise date_error
  end.

(** Days before January 1st of year [y], as in [date.toordinal]. *)
Definition days_before_year (y : Z) : Z :=
  let p := y - 1 in p * 365 + p / 4 - p / 100 + p / 400.

Fixpoint days_before_month_aux (y : Z) (n : nat) : Z :=
  match n with
  | O => 0
  | S n' => days_before_month_aux y n' + days_in_month y (Z.of_nat n)
  end.

Definition days_before_month (y m : Z) : Z :=
  days_before_month_aux y (Z.to_nat (m - 1)).

Definition toordinal (d : datetime) : Z :=
  days_before_year (year d) + days_before_month (year d) (month d) + day d.

Definition seconds_of (d : datetime) : Z :=
  toordinal d * 86400 + hour d * 3600 + minute d * 60 + second d.

(** [(a - b).days]: a [timedelta] keeps its seconds in [0, 86400), so the
    days are the floor of the quotient. *)
Definition timedelta_days (a b : datetime) : Z :=
  (seconds_of a - seconds_of b) / 86400.

(** ** get_items_list *)

(** What [requests.request] hands back, as far as the script reads it.
    [text] is the body as [json.loads] decodes it, [None] when it is no
    JSON; a decoded dict has each key once.  [links] is the parsed [Link]
    header: relation, then the fields of that link. *)
Record response : Type := mkresp {
  status_code : Z;
  text : option value;
  links : list (string * list (string * string))
}.

(** The server: the response to a GET of [url] with basic authentication
    [login], [password]. *)
Definition server : Type := string -> string -> string -> response.

Definition json_loads (r : response) : result value :=
  match text r with
  | Some v => Ok v
  | None => Raise JSONDecodeError
  end.

Fixpoint chars (s : string) : list value :=
  match s with
  | EmptyString => []
  | String c s' => VStr (String c "") :: chars s'
  end.

(** [items_list.extend(v)]: a list gives its elements, a dict its keys, a
    string its characters; nothing else can be iterated. *)
Definition extend (items_list : list value) (v : value) : result (list value) :=
  match v with
  | VList l => Ok (items_list ++ l)%list
  | VDict kvs => Ok (items_list ++ map (fun kv => VStr (fst kv)) kvs)%list
  | VStr s => Ok (items_list ++ chars s)%list
  | _ => Raise TypeError
  end.

(** [response.links.get("next", {}).get("url", "")]. *)
Definition next_url (r : response) : string :=
  dict_get (dict_get (links r) "next" []) "url" "".

Definition not_found_error : exn :=
  ArgumentTypeError "Please, make sure that branch you've chosen exists".
Definition limit_error : exn := ArgumentTypeError "Request limit".
Definition credentials_error : exn := ArgumentTypeError "Wrong credentials".

(** One turn of the [while] loop on a response already received: the new
    [url] and [items_list], or the exception that ends the loop. *)
Definition consume (r : response) (items_list : list value)
  : result (string * list value) :=
  body <- json_loads r ;;
  items_list <- extend items_list body ;;
  let url := next_url r in
  if status_code r =? 404 then Raise not_found_error
  else if status_code r =? 403 then Raise limit_error
  else if status_code r =? 401 then Raise credentials_error
  else Ok (url, items_list).

(** The loop, with the list [sent] of the URLs requested so far.  [None]:
    the loop has not ended within [fuel] turns. *)
Fixpoint fetch_loop (net : server) (login password : string) (fuel : nat)
    (url : string) (items_list : list value) (sent : list string)
  : option (list string * result (list value)) :=
  match fuel with
  | O => None
  | S fuel' =>
      if truthy (VStr url) then
        match consume (net url login password) items_list with
        | Ok (url', items_list') =>
            fetch_loop net login password fuel' url' items_list' (sent ++ [url])%list
        | Raise e => Some ((sent ++ [url])%list, Raise e)
        end
      else Some (sent, Ok items_list)
  end.

Definition get_items_list (net : server) (fuel : nat) (url login password : string)
  : option (list string * result (list value)) :=
  fetch_loop net login password fuel url [] [].

(** ** get_top_contributors *)

(** [result]: the dict from login to count, in insertion order. *)
Definition tally : Type := list (string * Z).

Definition has_key (k : string) (t : tally) : bool :=
  match lookup k t with
  | Some _ => true
  | None => false
  end.

(** [result[k] += 1] for a key that is there. *)
Fixpoint increment (k : string) (t : tally) : tally :=
  match t with
  | [] => []
  | (k', n) :: rest =>
      if (k' =? k)%string then (k', n + 1) :: rest
      else (k', n) :: increment k rest
  end.

(** The body of [for commit in commits] on the state
    [(result, login_max_len)].  A login that is no string ends in a
    [TypeError], at [in] when it cannot be hashed and at [len]
    otherwise. *)
Definition count_commit (st : tally * nat) (commit : value)
  : result (tally * nat) :=
  author <- get commit "author" (VDict []) ;;
  if truthy author then
    login <- get author "login" (VStr "") ;;
    match login with
    | VStr login =>
        let st1 :=
          if has_key login (fst st) then st
          else ((fst st ++ [(login, 0)])%list,
                if (snd st <? String.length login)%nat
                then String.length login else snd st) in
        c <- get commit "commit" (VDict []) ;;
        message <- get c "message" (VStr "") ;;
        match message with
        | VStr message =>
            if negb (startswith message "Merge")
            then Ok (increment login (fst st1), snd st1)
            else Ok st1
        | _ => Raise AttributeError
        end
    | _ => Raise TypeError
    end
  else Ok st.

Fixpoint count_commits (st : tally * nat) (commits : list value)
  : result (tally * nat) :=
  match commits with
  | [] => Ok st
  | commit :: rest =>
      st' <- count_commit st commit ;;
      count_commits st' rest
  end.

(** [sorted(..., key=lambda it: it[1], reverse=True)]: stable, so entries
    with equal counts stay in insertion order. *)
Fixpoint insert_desc (x : string * Z) (l : tally) : tally :=
  match l with
  | [] => [x]
  | y :: l' =>
      if snd y <=? snd x then x :: y :: l' else y :: insert_desc x l'
  end.

Definition sorted_desc (t : tally) : tally := fold_right insert_desc [] t.

Definition window_line (start_date end_date : string) : string :=
  "Analysis start date: " ++ start_date ++ ", analysis end date: "
  ++ end_date ++ ".".

(** The lines printed for a finished tally. *)
Definition contributors_report (owner repo start_date end_date branch : string)
    (st : tally * nat) : list string :=
  let contributors := sorted_desc (fst st) in
  let w := (snd st + 2)%nat in
  ("Top contributors for " ++ branch ++ " branch in " ++ owner ++ "/" ++ repo
     ++ " repository.")
  :: window_line start_date end_date
  :: (ljust "User login" w ++ "Number of commits")
  :: map (fun c => ljust (fst c) w ++ str_of_int (snd c))
         (slice 0 30 contributors).

Definition commits_url (owner repo start_date end_date branch : string) : string :=
  COMMITS_URL owner repo
    (make_params [("start_date", PStr start_date); ("end_date", PStr end_date);
                  ("sha", PStr branch); ("per_page", PInt PER_PAGE)]).

(** [None]: the download has not ended within [fuel] pages. *)
Definition get_top_contributors (net : server) (fuel : nat)
    (owner repo start_date end_date branch login password : string)
  : option (result (list string)) :=
  match get_items_list net fuel
          (commits_url owner repo start_date end_date branch) login password with
  | None => None
  | Some (_, r) =>
      Some (commits <- r ;;
            st <- count_commits ([], O) commits ;;
            Ok (contributors_report owner repo start_date end_date branch st))
  end.

(** ** get_stats *)

Record counters : Type := mkc { c_open : Z; c_closed : Z; c_old : Z }.

(** The two dicts [pull_requests] and [issues]. *)
Record stats : Type := mkstats { pull_requests : counters; issues : counters }.

Definition zero : counters := mkc 0 0 0.

Definition dict_by (t : item_type) (s : stats) : counters :=
  match t with
  | pull_request => pull_requests s
  | issue => issues s
  end.

Definition set_dict (t : item_type) (c : counters) (s : stats) : stats :=
  match t with
  | pull_request => mkstats c (issues s)
  | issue => mkstats (pull_requests s) c
  end.

Definition add_open (t : item_type) (s : stats) : stats :=
  let c := dict_by t s in set_dict t (mkc (c_open c + 1) (c_closed c) (c_old c)) s.
Definition add_closed (t : item_type) (s : stats) : stats :=
  let c := dict_by t s in set_dict t (mkc (c_open c) (c_closed c + 1) (c_old c)) s.
Definition add_old (t : item_type) (s : stats) : stats :=
  let c := dict_by t s in set_dict t (mkc (c_open c) (c_closed c) (c_old c + 1)) s.

(** [strptime] of a value: a [TypeError] unless it is a string. *)
Definition strptime_value (v : value) : result datetime :=
  match v with
  | VStr s => match strptime s with
              | Some d => Ok d
              | None => Raise ValueError
              end
  | _ => Raise TypeError
  end.

Definition is_old_pr (pr_create_date : value) (period_end_date : string)
    (t : item_type) : result bool :=
  created <- strptime_value pr_create_date ;;
  ended <- strptime_value (VStr period_end_date) ;;
  let diff := timedelta_days ended created in
  Ok (diff >? OLD_DAYS_NUM t).

(** [v < s] where [s] is a [str]. *)
Definition lt_value_str (v : value) (s : string) : result bool :=
  match v with
  | VStr t => Ok (str_lt t s)
  | _ => Raise TypeError
  end.

(** [start_date < item.get("created_at") < end_date]: the middle operand
    is evaluated once and the second comparison only after the first
    holds. *)
Definition in_window (start_date end_date : string) (item : value) : result bool :=
  created_at <- get item "created_at" VNone ;;
  lower <- lt_str_value start_date created_at ;;
  if lower then lt_value_str created_at end_date else Ok false.

(** The body of [for item in items]. *)
Definition count_item (start_date end_date : string) (s : stats) (item : value)
  : result stats :=
  inside <- in_window start_date end_date item ;;
  if inside then
    marker <- get item "pull_request" (VStr "") ;;
    let t := if truthy marker then pull_request else issue in
    state <- get item "state" VNone ;;
    s1 <- (if eq_str state "open" then
             created_at <- get item "created_at" VNone ;;
             old <- is_old_pr created_at end_date t ;;
             Ok (if old then add_old t (add_open t s) else add_open t s)
           else Ok s) ;;
    state <- get item "state" VNone ;;
    Ok (if eq_str state "closed" then add_closed t s1 else s1)
  else Ok s.

Fixpoint count_items (start_date end_date : string) (s : stats)
    (items : list value) : result stats :=
  match items with
  | [] => Ok s
  | item :: rest =>
      s' <- count_item start_date end_date s item ;;
      count_items start_date end_date s' rest
  end.

(** ["{:8}{}".format(k, v)] for the three keys in insertion order. *)
Definition counters_lines (c : counters) : list string :=
  [ ljust "open" 8 ++ str_of_int (c_open c);
    ljust "closed" 8 ++ str_of_int (c_closed c);
    ljust "old" 8 ++ str_of_int (c_old c) ].

Definition stats_title (kind owner repo branch : string) : string :=
  "Amount of open/closed/old " ++ kind ++ " for " ++ branch ++ " branch in "
  ++ owner ++ "/" ++ repo ++ " repository.".

Definition stats_report (owner repo start_date end_date branch : string)
    (s : stats) : list string :=
  let w := window_line start_date end_date in
  ((stats_title "pull requests" owner repo branch :: w
      :: counters_lines (pull_requests s))
   ++ (stats_title "issues" owner repo branch :: w
         :: counters_lines (issues s)))%list.

Definition issues_url (owner repo branch : string) : string :=
  ISSUES_URL owner repo
    (make_params [("state", PStr "all"); ("base", PStr branch);
                  ("per_page", PInt PER_PAGE)]).

Definition get_stats (net : server) (fuel : nat)
    (owner repo start_date end_date branch login password : string)
  : option (result (list string)) :=
  match get_items_list net fuel (issues_url owner repo branch) login password with
  | None => None
  | Some (_, r) =>
      Some (items <- r ;;
            s <- count_items start_date end_date (mkstats zero zero) items ;;
            Ok (stats_report owner repo start_date end_date branch s))
  end.

(** ** main *)

(** What has been printed, and how the run ended.  [None]: a download has
    not ended within [fuel] pages. *)
Definition main (net : server) (fuel : nat)
    (url start_date end_date branch login password : string)
  : option (list string * result unit) :=
  match owner_repo url with
  | Raise e => Some ([], Raise e)
  | Ok (owner, repo) =>
      match get_top_contributors net fuel owner repo start_date end_date
              branch login password with
      | None => None
      | Some (Raise e) => Some ([], Raise e)
      | Some (Ok out1) =>
          match get_stats net fuel owner repo start_date end_date
                  branch login password with
          | None => None
          | Some (Raise e) => Some (out1, Raise e)
          | Some (Ok out2) => Some ((out1 ++ out2)%list, Ok tt)
          end
      end
  end.

(** ** Vocabulary of the statements about get_stats *)

(** The type an item is filed under: a truthy [pull_request] marker makes
    it a pull request. *)
Definition type_of (kvs : list (string * value)) : item_type :=
  if truthy (dict_get kvs "pull_request" (VStr "")) then pull_request else issue.

Definition state_of (kvs : list (string * value)) : value :=
  dict_get kvs "state" VNone.

(** [created_at] lies strictly between the two bounds. *)
Definition inside (start_date end_date : string) (kvs : list (string * value)) : bool :=
  match dict_get kvs "created_at" VNone with
  | VStr c => str_lt start_date c && str_lt c end_date
  | _ => false
  end.

(** The age in whole days of an item created at [c], at [end_date]. *)
Definition age_days (c end_date : string) : option Z :=
  match strptime c, strptime end_date with
  | Some dc, Some de => Some (timedelta_days de dc)
  | _, _ => None
  end.

(** The items on which the loop body of [get_stats] ends normally: dicts
    whose [created_at] is a string and, when the item is inside the window
    and open, a string with an age. *)
Definition item_defined (start_date end_date : string) (item : value) : bool :=
  match item with
  | VDict kvs =>
      match dict_get kvs "created_at" VNone with
      | VStr c =>
          if inside start_date end_date kvs && eq_str (state_of kvs) "open"
          then match age_days c end_date with Some _ => true | None => false end
          else true
      | _ => false
      end
  | _ => false
  end.

(** What one turn of the loop does to the counters. *)
Definition counted (end_date : string) (kvs : list (string * value)) (c : string)
    (s : stats) : result stats :=
  let t := type_of kvs in
  if eq_str (state_of kvs) "open" then
    match strptime c, strptime end_date with
    | Some dc, Some de =>
        Ok (if timedelta_days de dc >? OLD_DAYS_NUM t
            then add_old t (add_open t s) else add_open t s)
    | _, _ => Raise ValueError
    end
  else Ok (if eq_str (state_of kvs) "closed" then add_closed t s else s).

Definition other_type (t : item_type) : item_type :=
  match t with
  | pull_request => issue
  | issue => pull_request
  end.

(** No more old items than open ones, in both dicts. *)
Definition old_within_open (s : stats) : Prop :=
  c_old (pull_requests s) <= c_open (pull_requests s)
  /\ c_old (issues s) <= c_open (issues s).

(** The four items of the example: an open issue of 20 days, a closed
    issue, an open pull request of 40 days and one of 5 days, counted at
    the first of March 2021. *)
Definition example_end : string := "2021-03-01T00:00:00Z".

Definition example_items : list value :=
  [ VDict [("created_at", VStr "2021-02-09T00:00:00Z"); ("state", VStr "open")];
    VDict [("created_at", VStr "2021-02-20T00:00:00Z"); ("state", VStr "closed")];
    VDict [("created_at", VStr "2021-01-20T00:00:00Z"); ("state", VStr "open");
           ("pull_request", VDict [("url", VStr "u")])];
    VDict [("created_at", VStr "2021-02-24T00:00:00Z"); ("state", VStr "open");
           ("pull_request", VDict [("url", VStr "u")])] ].

(** ** Vocabulary of the statements about get_top_contributors *)

(** The login a commit is counted under: that of its author object when
    the commit has one (the empty login when the object has none). *)
Definition author_login (commit : value) : option string :=
  match commit with
  | VDict kvs =>
      let author := dict_get kvs "author" (VDict []) in
      if truthy author then
        match author with
        | VDict a => match dict_get a "login" (VStr "") with
                     | VStr login => Some login
                     | _ => None
                     end
        | _ => None
        end
      else None
  | _ => None
  end.

Definition message_of (commit : value) : option string :=
  match commit with
  | VDict kvs =>
      match dict_get kvs "commit" (VDict []) with
      | VDict c => match dict_get c "message" (VStr "") with
                   | VStr message => Some message
                   | _ => None
                   end
      | _ => None
      end
  | _ => None
  end.

(** A commit as the data model has it: an object without an author, or
    with an author object whose login is a string and with a message that
    is a string. *)
Definition commit_ok (commit : value) : bool :=
  match commit with
  | VDict kvs =>
      if truthy (dict_get kvs "author" (VDict [])) then
        match author_login commit, message_of commit with
        | Some _, Some _ => true
        | _, _ => false
        end
      else true
  | _ => false
  end.

Definition authored_by (login : string) (commit : value) : bool :=
  match author_login commit with
  | Some l => (l =? login)%string
  | None => false
  end.

Definition is_merge (commit : value) : bool :=
  match message_of commit with
  | Some message => startswith message "Merge"
  | None => false
  end.

(** The number of commits of [login] whose message does not start with
    ["Merge"]. *)
Fixpoint non_merge_commits (login : string) (commits : list value) : Z :=
  match commits with
  | [] => 0
  | c :: rest =>
      (if authored_by login c && negb (is_merge c) then 1 else 0)
      + non_merge_commits login rest
  end.

Definition commit_of (login message : string) : value :=
  VDict [("author", VDict [("login", VStr login)]);
         ("commit", VDict [("message", VStr message)])].

(** The commits of the example; the last one has no author. *)
Definition example_commits : list value :=
  [ commit_of "A" "Merge pull request"; commit_of "A" "fix bug";
    commit_of "B" "feat";
    VDict [("author", VNone); ("commit", VDict [("message", VStr "wip")])] ].

(** ** A server with a single page, for the examples *)

Definition one_page (status : Z) (body : option value) : server :=
  fun _ _ _ => mkresp status body [].

(** A commit of 1999, dated in the place the API puts the date and under
    [created_at] as well. *)
Definition commit_of_1999 : value :=
  VDict [("author", VDict [("login", VStr "A")]);
         ("commit", VDict [("message", VStr "fix bug");
                           ("author", VDict [("date", VStr "1999-12-31T23:59:59Z")])]);
         ("created_at", VStr "1999-12-31T23:59:59Z")].

(** ** Vocabulary of the statements about get_items_list *)

(** The state of the [while] loop between two turns. *)
Record loop_state : Type := mkloop {
  cur : string;            (* [url] *)
  got : list value;        (* [items_list] *)
  sent : list string       (* the URLs requested so far *)
}.

(** [turns n st st']: from [st], the loop makes [n] turns that end
    normally and is then in [st']. *)
Inductive turns (net : server) (login password : string)
  : nat -> loop_state -> loop_state -> Prop :=
| turns_0 st : turns net login password 0 st st
| turns_S n st url' items' st' :
    truthy (VStr (cur st)) = true ->
    consume (net (cur st) login password) (got st) = Ok (url', items') ->
    turns net login password n (mkloop url' items' (sent st ++ [cur st])%list) st' ->
    turns net login password (S n) st st'.

(** The error the script has for a status. *)
Definition error_of_status (status : Z) : option exn :=
  if status =? 404 then Some not_found_error
  else if status =? 403 then Some limit_error
  else if status =? 401 then Some credentials_error
  else None.

(** [json.loads] of the body followed by [extend]. *)
Definition take_body (r : response) (items_list : list value) : result (list value) :=
  body <- json_loads r ;; extend items_list body.

(** ** Vocabulary of the statements about check_url *)

Fixpoint all_chars (p : ascii -> bool) (s : string) : bool :=
  match s with
  | EmptyString => true
  | String c s' => p c && all_chars p s'
  end.

(** A non-empty run of letters, digits and hyphens. *)
Definition is_name (s : string) : bool :=
  negb (s =? "")%string && all_chars name_char s.

(** [https://github<c>com/<owner>/<repo><tail>]. *)
Definition github_url (c : ascii) (owner repo tail : string) : string :=
  "https://github" ++ String c ("com/" ++ owner ++ "/" ++ repo ++ tail).

(** The strings that are [https://github.com/<owner>/<repo>] up to two
    allowances of the pattern: its dot is not escaped, so any character
    [c] but a newline may stand in its place, and [$] lets one newline
    follow the repo ([tail]). *)
Definition loosely_github_url (url : string) : Prop :=
  exists c owner repo tail,
    url = github_url c owner repo tail
    /\ c <> Re.newline
    /\ is_name owner = true /\ is_name repo = true
    /\ (tail = "" \/ tail = String Re.newline "").

(** ** Vocabulary of the statements about check_date *)

Definition digit_char (n : Z) : ascii := ascii_of_nat (48 + Z.to_nat n).

Definition pad2 (n : Z) (rest : string) : string :=
  String (digit_char (n / 10)) (String (digit_char (n mod 10)) rest).

Definition pad4 (n : Z) (rest : string) : string :=
  String (digit_char (n / 1000)) (String (digit_char (n / 100 mod 10))
    (String (digit_char (n / 10 mod 10)) (String (digit_char (n mod 10)) rest))).

(** The date written as [YYYY-MM-DDTHH:MM:SSZ], every field padded with
    zeros: the notation the error message of [check_date] asks for. *)
Definition iso_format (d : datetime) : string :=
  pad4 (year d) (String "-" (pad2 (month d) (String "-" (pad2 (day d)
    (String "T" (pad2 (hour d) (String ":" (pad2 (minute d)
      (String ":" (pad2 (second d) "Z")))))))))).



(** A field as [strptime] takes it: two digits, or one digit for a value
    below ten. *)
Definition written (v : Z) (f : string) : Prop :=
  (0 <= v <= 99 /\ f = pad2 v "")
  \/ (0 <= v <= 9 /\ f = String (digit_char v) "").

(** The day may also be padded with a space. *)
Definition day_written (v : Z) (f : string) : Prop :=
  written v f \/ (1 <= v <= 9 /\ f = String " " (String (digit_char v) "")).

(** The date written as [strptime] takes it with the mask: four digits of
    year, then every other field in two digits or in one, the letters in
    either case. *)
Definition lenient_format (d : datetime) (s : string) : Prop :=
  exists fm fd ft fh fmi fs fz,
    s = pad4 (year d)
          ("-" ++ fm ++ "-" ++ fd ++ ft ++ fh ++ ":" ++ fmi ++ ":" ++ fs ++ fz)
    /\ written (month d) fm /\ day_written (day d) fd
    /\ (ft = "T" \/ ft = "t")
    /\ written (hour d) fh /\ written (minute d) fmi /\ written (second d) fs
    /\ (fz = "Z" \/ fz = "z").

(** ** Servers for the examples of pagination *)


(** A page that links to itself. *)
Definition looping_page : server :=
  fun _ _ _ => mkresp 200 (Some (VList [VInt 0])) [("next", [("url", "again")])].

(** ** Vocabulary of the statements about the report of contributors *)

(** [x] may stand before [y] in the report. *)
Definition no_fewer (x y : string * Z) : Prop := snd y <= snd x.

(** The entries of a tally that have the count [c], in order. *)
Definition with_count (c : Z) (t : tally) : tally :=
  filter (fun x => snd x =? c) t.

(** The length of the longest login of a tally. *)
Definition max_len (t : tally) : nat :=
  fold_right (fun kv m => Nat.max (String.length (fst kv)) m) O t.

(** The sum of the counts of a tally. *)
Definition total (t : tally) : Z :=
  fold_right (fun kv n => snd kv + n) 0 t.

(** The commits that add one to some count. *)
Definition counted_commit (c : value) : bool :=
  match author_login c with
  | Some _ => negb (is_merge c)
  | None => false
  end.

(** ** Vocabulary of the statements about the totals of get_stats *)

Definition type_eqb (a b : item_type) : bool :=
  match a, b with
  | pull_request, pull_request => true
  | issue, issue => true
  | _, _ => false
  end.

(** The item is inside the window, of type [t] and in state [state]. *)
Definition filed (start_date end_date : string) (t : item_type) (state : string)
    (item : value) : bool :=
  match item with
  | VDict kvs =>
      inside start_date end_date kvs && type_eqb (type_of kvs) t
      && eq_str (state_of kvs) state
  | _ => false
  end.

(** The item has an age at [end_date], above the threshold of [t]. *)
Definition overdue (end_date : string) (t : item_type) (item : value) : bool :=
  match item with
  | VDict kvs =>
      match dict_get kvs "created_at" VNone with
      | VStr c => match age_days c end_date with
                  | Some age => age >? OLD_DAYS_NUM t
                  | None => false
                  end
      | _ => false
      end
  | _ => false
  end.

Definition how_many (p : value -> bool) (items : list value) : Z :=
  Z.of_nat (List.length (filter p items)).

Definition one_if (b : bool) : Z := if b then 1 else 0.

(** ** Vocabulary of the statements about the order of dates *)

(** [a] is earlier than [b], field by field from the year down. *)
Definition earlier (a b : datetime) : Prop :=
  year a < year b \/ (year a = year b /\
  (month a < month b \/ (month a = month b /\
  (day a < day b \/ (day a = day b /\
  (hour a < hour b \/ (hour a = hour b /\
  (minute a < minute b \/ (minute a = minute b /\
   second a < second b))))))))).

(** Comparison of two fields, then of what follows. *)
Definition field_lt (v v' : Z) (rest : bool) : bool :=
  if v <? v' then true else if v' <? v then false else rest.

Definition earlierb (a b : datetime) : bool :=
  field_lt (year a) (year b)
    (field_lt (month a) (month b)
      (field_lt (day a) (day b)
        (field_lt (hour a) (hour b)
          (field_lt (minute a) (minute b)
            (field_lt (second a) (second b) false))))).

(** * Properties *)

(** ** Strings *)

Lemma append_empty_r (s : string) : s ++ "" = s.
Proof. induction s as [|c s IH]; simpl; [reflexivity | now rewrite IH]. Qed.

Lemma append_eq_nil (a b : string) : a ++ b = "" -> a = "" /\ b = "".
Proof. destruct a; simpl; [auto | discriminate]. Qed.

(** ** make_params *)

Lemma kept_pairs_in (kwargs : list (string * param)) (p : string) :
  In p (kept_pairs kwargs) <->
  exists k v, In (k, v) kwargs /\ param_truthy v = true
              /\ p = k ++ "=" ++ param_str v.
Proof.
  unfold kept_pairs. rewrite in_map_iff. split.
  - intros [[k v] [Hp Hin]]. apply filter_In in Hin. destruct Hin as [Hin Ht].
    exists k, v. simpl in *. auto.
  - intros (k & v & Hin & Ht & ->). exists (k, v). split; [reflexivity|].
    apply filter_In. auto.
Qed.

(** C8, as amended: the query string is empty for an empty map; for any
    other map it is ["?"] followed by the [key=value] pairs of exactly the
    parameters with a non-falsy value, in order, joined by ["&"].  So the
    ["?"] is there if and only if the map has a parameter, falsy or not. *)
Theorem make_params_shape (kwargs : list (string * param)) :
  (kwargs = [] -> make_params kwargs = "")
  /\ (kwargs <> [] -> make_params kwargs = "?" ++ join "&" (kept_pairs kwargs))
  /\ (String.prefix "?" (make_params kwargs) = true <-> kwargs <> [])
  /\ (forall p, In p (kept_pairs kwargs) <->
        exists k v, In (k, v) kwargs /\ param_truthy v = true
                    /\ p = k ++ "=" ++ param_str v).
Proof.
  repeat split.
  - intros ->. reflexivity.
  - destruct kwargs; [congruence | reflexivity].
  - destruct kwargs; simpl; [discriminate | intros _; discriminate].
  - destruct kwargs as [|kv rest]; [congruence | intros _].
    unfold make_params. simpl. now destruct (join "&" (kept_pairs (kv :: rest))).
  - apply kept_pairs_in.
  - apply kept_pairs_in.
Qed.

Lemma make_params_shape_witness :
  let kwargs := [("state", PStr "all"); ("base", PStr ""); ("per_page", PInt 100)] in
  kwargs <> [] /\ make_params kwargs = "?state=all&per_page=100".
Proof.
  split; [discriminate|].
  rewrite (proj1 (proj2 (make_params_shape _))); [reflexivity | discriminate].
Defined.

(** C8, as stated, fails: a map whose only parameter is falsy has no
    parameter to print and still gives ["?"]. *)
Lemma make_params_falsy_only :
  let kwargs := [("sha", PStr "")] in
  String.prefix "?" (make_params kwargs) = true
  /\ ~ (exists k v, In (k, v) kwargs /\ param_truthy v = true).
Proof.
  split; [reflexivity|].
  intros (k & v & [H | []] & Ht). inversion H; subst. discriminate.
Qed.

(** ** get_stats: the loop body, case by case *)

Lemma str_lt_irrefl (a : string) : str_lt a a = false.
Proof.
  induction a as [|x a IH]; simpl; [reflexivity|].
  now rewrite Nat.ltb_irrefl.
Qed.

Lemma open_not_closed (v : value) :
  eq_str v "open" = true -> eq_str v "closed" = false.
Proof.
  destruct v; simpl; try discriminate.
  intros H. apply String.eqb_eq in H. now subst.
Qed.

Lemma count_item_dict (start_date end_date : string) (s : stats)
    (kvs : list (string * value)) :
  count_item start_date end_date s (VDict kvs) =
  match dict_get kvs "created_at" VNone with
  | VStr c => if inside start_date end_date kvs
              then counted end_date kvs c s else Ok s
  | _ => Raise TypeError
  end.
Proof.
  unfold count_item, in_window, inside, counted, state_of, type_of, is_old_pr.
  simpl.
  destruct (dict_get kvs "created_at" VNone) as [| | |c| |] eqn:Hc;
    simpl; try reflexivity.
  destruct (str_lt start_date c); simpl; [|reflexivity].
  destruct (str_lt c end_date); simpl; [|reflexivity].
  destruct (eq_str (dict_get kvs "state" VNone) "open") eqn:Ho; simpl.
  - rewrite (open_not_closed _ Ho).
    destruct (strptime c); simpl; [|reflexivity].
    destruct (strptime end_date); simpl; [|reflexivity].
    now destruct (_ >? _).
  - reflexivity.
Qed.

Lemma count_items_app (start_date end_date : string) (l1 l2 : list value) :
  forall s,
    count_items start_date end_date s (l1 ++ l2)%list =
    bind (count_items start_date end_date s l1)
         (fun s' => count_items start_date end_date s' l2).
Proof.
  induction l1 as [|x l1 IH]; intros s; simpl; [reflexivity|].
  destruct (count_item start_date end_date s x); simpl; [apply IH | reflexivity].
Qed.

(** C6: an item whose [created_at] is exactly [start_date] or exactly
    [end_date] is left out: the loop body returns the counters as they
    were, and the whole count is the count of the list without the item. *)
Theorem boundary_item_excluded (start_date end_date c : string)
    (kvs : list (string * value)) :
  dict_get kvs "created_at" VNone = VStr c ->
  c = start_date \/ c = end_date ->
  (forall s, count_item start_date end_date s (VDict kvs) = Ok s)
  /\ (forall s before after,
        count_items start_date end_date s (before ++ VDict kvs :: after)%list
        = count_items start_date end_date s (before ++ after)%list).
Proof.
  intros Hc Hb.
  assert (Hin : inside start_date end_date kvs = false).
  { unfold inside. rewrite Hc. destruct Hb as [-> | ->].
    - now rewrite str_lt_irrefl.
    - rewrite str_lt_irrefl. apply andb_false_r. }
  assert (Hstep : forall s, count_item start_date end_date s (VDict kvs) = Ok s).
  { intros s. rewrite count_item_dict, Hc, Hin. reflexivity. }
  split; [exact Hstep|].
  intros s before after. rewrite !count_items_app.
  destruct (count_items start_date end_date s before); simpl; [|reflexivity].
  now rewrite Hstep.
Qed.

Lemma boundary_item_excluded_witness :
  let kvs := [("created_at", VStr "2021-03-01T00:00:00Z"); ("state", VStr "open")] in
  count_item "1970-01-01T00:00:00Z" "2021-03-01T00:00:00Z"
    (mkstats zero zero) (VDict kvs) = Ok (mkstats zero zero).
Proof.
  intros kvs.
  apply (proj1 (boundary_item_excluded "1970-01-01T00:00:00Z"
                  "2021-03-01T00:00:00Z" "2021-03-01T00:00:00Z" kvs
                  eq_refl (or_intror eq_refl))).
Defined.

Lemma counted_inside (start_date end_date c : string) (s : stats)
    (kvs : list (string * value)) :
  dict_get kvs "created_at" VNone = VStr c ->
  inside start_date end_date kvs = true ->
  count_item start_date end_date s (VDict kvs) = counted end_date kvs c s.
Proof. intros Hc Hin. now rewrite count_item_dict, Hc, Hin. Qed.

Lemma inside_created (start_date end_date : string) (kvs : list (string * value)) :
  inside start_date end_date kvs = true ->
  exists c, dict_get kvs "created_at" VNone = VStr c.
Proof.
  unfold inside. destruct (dict_get kvs "created_at" VNone); try discriminate.
  eauto.
Qed.

(** C4: an open item inside the window is counted as open, and as old
    exactly when its age in whole days at [end_date] is above the threshold
    of its type (30 for a pull request, 14 for an issue); a closed item is
    counted as closed and its dates are never parsed.  The four items of
    the example give issues 1/1/1 and pull requests 2/0/1. *)
Theorem old_exactly_above_threshold :
  (OLD_DAYS_NUM pull_request = 30 /\ OLD_DAYS_NUM issue = 14)
  /\ (forall start_date end_date c age s kvs,
        dict_get kvs "created_at" VNone = VStr c ->
        inside start_date end_date kvs = true ->
        eq_str (state_of kvs) "open" = true ->
        age_days c end_date = Some age ->
        let t := type_of kvs in
        exists s',
          count_item start_date end_date s (VDict kvs) = Ok s'
          /\ s' = (if age >? OLD_DAYS_NUM t
                   then add_old t (add_open t s) else add_open t s)
          /\ c_open (dict_by t s') = c_open (dict_by t s) + 1
          /\ (c_old (dict_by t s') = c_old (dict_by t s) + 1
              <-> OLD_DAYS_NUM t < age)
          /\ (c_old (dict_by t s') = c_old (dict_by t s)
              <-> age <= OLD_DAYS_NUM t))
  /\ (forall start_date end_date s kvs,
        inside start_date end_date kvs = true ->
        eq_str (state_of kvs) "closed" = true ->
        count_item start_date end_date s (VDict kvs)
        = Ok (add_closed (type_of kvs) s)
        /\ c_old (dict_by (type_of kvs) (add_closed (type_of kvs) s))
           = c_old (dict_by (type_of kvs) s))
  /\ count_items DEFAULT_START_DATE example_end (mkstats zero zero) example_items
     = Ok (mkstats (mkc 2 0 1) (mkc 1 1 1)).
Proof.
  split; [split; reflexivity|]. split; [|split].
  - intros start_date end_date c age s kvs Hc Hin Ho Hage t.
    eexists. split; [|split; [reflexivity|]].
    + rewrite (counted_inside _ _ _ _ _ Hc Hin). unfold counted.
      rewrite Ho. unfold age_days in Hage.
      destruct (strptime c); [|discriminate].
      destruct (strptime end_date); [|discriminate].
      inversion Hage; subst. reflexivity.
    + destruct (Z.gtb_spec age (OLD_DAYS_NUM t));
        destruct t, s as [[] []]; simpl in *; repeat split; intros; lia.
  - intros start_date end_date s kvs Hin Hcl.
    destruct (inside_created _ _ _ Hin) as [c Hc].
    split.
    + rewrite (counted_inside _ _ _ _ _ Hc Hin). unfold counted.
      destruct (eq_str (state_of kvs) "open") eqn:Ho.
      * apply open_not_closed in Ho. congruence.
      * now rewrite Hcl.
    + now destruct (type_of kvs), s as [[] []].
  - vm_compute. reflexivity.
Qed.

Lemma old_exactly_above_threshold_witness :
  exists s',
    count_item DEFAULT_START_DATE example_end (mkstats zero zero)
      (VDict [("created_at", VStr "2021-02-09T00:00:00Z"); ("state", VStr "open")])
    = Ok s'
    /\ c_old (issues s') = 1.
Proof.
  destruct (proj1 (proj2 old_exactly_above_threshold)
              DEFAULT_START_DATE example_end "2021-02-09T00:00:00Z" 20
              (mkstats zero zero)
              [("created_at", VStr "2021-02-09T00:00:00Z"); ("state", VStr "open")]
              eq_refl eq_refl eq_refl eq_refl) as (s' & H1 & H2 & _).
  exists s'. split; [exact H1 | rewrite H2; reflexivity].
Defined.

(** ** get_stats: invariant and classification *)

Lemma count_item_keeps_old_within_open (start_date end_date : string)
    (s s' : stats) (item : value) :
  old_within_open s ->
  count_item start_date end_date s item = Ok s' ->
  old_within_open s'.
Proof.
  intros Hinv H. destruct item as [| | | | |kvs]; try discriminate.
  rewrite count_item_dict in H.
  destruct (dict_get kvs "created_at" VNone) as [| | |c| |]; try discriminate.
  destruct (inside start_date end_date kvs); [|now inversion H; subst].
  unfold counted in H.
  destruct (eq_str (state_of kvs) "open").
  - destruct (strptime c); [|discriminate].
    destruct (strptime end_date); [|discriminate].
    inversion H; subst. unfold old_within_open in *.
    destruct (_ >? _), (type_of kvs), s as [[] []]; simpl in *; lia.
  - inversion H; subst. unfold old_within_open in *.
    destruct (eq_str (state_of kvs) "closed"), (type_of kvs), s as [[] []];
      simpl in *; lia.
Qed.

Lemma count_items_keep_old_within_open (start_date end_date : string)
    (items : list value) :
  forall s s',
    old_within_open s ->
    count_items start_date end_date s items = Ok s' ->
    old_within_open s'.
Proof.
  induction items as [|item items IH]; intros s s' Hinv H; simpl in H.
  - now inversion H; subst.
  - destruct (count_item start_date end_date s item) as [s1|] eqn:H1;
      simpl in H; [|discriminate].
    eapply IH; [|exact H].
    eapply count_item_keeps_old_within_open; eauto.
Qed.

(** C7, as amended: after any list of items has been counted, old is at
    most open in both dicts.  An item inside the window touches the dict
    of exactly one type, the one its pull-request marker selects; there it
    adds 1 to open alone when its state is ["open"], 1 to closed alone
    when its state is ["closed"], and nothing at all for any other or
    absent state. *)
Theorem old_within_open_and_one_class :
  (forall start_date end_date items s',
      count_items start_date end_date (mkstats zero zero) items = Ok s' ->
      old_within_open s')
  /\ (forall start_date end_date s s' kvs,
        inside start_date end_date kvs = true ->
        count_item start_date end_date s (VDict kvs) = Ok s' ->
        let t := type_of kvs in
        dict_by (other_type t) s' = dict_by (other_type t) s
        /\ (eq_str (state_of kvs) "open" = true ->
            c_open (dict_by t s') = c_open (dict_by t s) + 1
            /\ c_closed (dict_by t s') = c_closed (dict_by t s))
        /\ (eq_str (state_of kvs) "closed" = true ->
            c_closed (dict_by t s') = c_closed (dict_by t s) + 1
            /\ c_open (dict_by t s') = c_open (dict_by t s)
            /\ c_old (dict_by t s') = c_old (dict_by t s))
        /\ (eq_str (state_of kvs) "open" = false ->
            eq_str (state_of kvs) "closed" = false ->
            s' = s)).
Proof.
  split.
  - intros start_date end_date items s' H.
    eapply count_items_keep_old_within_open; [|exact H].
    unfold old_within_open; simpl; lia.
  - intros start_date end_date s s' kvs Hin H t.
    destruct (inside_created _ _ _ Hin) as [c Hc].
    rewrite (counted_inside _ _ _ _ _ Hc Hin) in H. unfold counted in H.
    fold t in H.
    destruct (eq_str (state_of kvs) "open") eqn:Ho.
    + rewrite (open_not_closed _ Ho).
      destruct (strptime c); [|discriminate].
      destruct (strptime end_date); [|discriminate].
      inversion H; subst s'.
      destruct (_ >? _), t, s as [[] []]; simpl;
        repeat split; intros; try discriminate; reflexivity.
    + inversion H; subst s'.
      destruct (eq_str (state_of kvs) "closed"), t, s as [[] []]; simpl;
        repeat split; intros; try discriminate; reflexivity.
Qed.

Lemma old_within_open_and_one_class_witness :
  old_within_open (mkstats (mkc 2 0 1) (mkc 1 1 1)).
Proof.
  apply (proj1 old_within_open_and_one_class DEFAULT_START_DATE example_end
           example_items).
  vm_compute. reflexivity.
Defined.

(** C7, as stated, fails: an item inside the window whose state is neither
    ["open"] nor ["closed"] is counted in neither. *)
Lemma state_neither_open_nor_closed :
  let kvs := [("created_at", VStr "2021-02-09T00:00:00Z"); ("state", VStr "all")] in
  inside DEFAULT_START_DATE example_end kvs = true
  /\ count_item DEFAULT_START_DATE example_end (mkstats zero zero) (VDict kvs)
     = Ok (mkstats zero zero).
Proof. split; reflexivity. Qed.

(** ** get_stats: where the computation is defined *)

Lemma count_item_cases (start_date end_date : string) (s : stats) (item : value) :
  (item_defined start_date end_date item = true
   /\ exists s', count_item start_date end_date s item = Ok s')
  \/ (item_defined start_date end_date item = false
      /\ exists e, count_item start_date end_date s item = Raise e
                   /\ classified e = false).
Proof.
  destruct item as [| | | | |kvs];
    try (right; split; [reflexivity | eexists; split; reflexivity]).
  rewrite count_item_dict. unfold item_defined.
  destruct (dict_get kvs "created_at" VNone) as [| | |c| |];
    try (right; split; [reflexivity | eexists; split; reflexivity]).
  destruct (inside start_date end_date kvs); simpl; [|left; eauto].
  unfold counted, age_days.
  destruct (eq_str (state_of kvs) "open"); [|left; eauto].
  destruct (strptime c); [destruct (strptime end_date)|];
    try (left; eauto; fail);
    right; split; try reflexivity; eexists; split; reflexivity.
Qed.

Lemma count_items_cases (start_date end_date : string) (items : list value) :
  forall s,
    (forallb (item_defined start_date end_date) items = true
     /\ exists s', count_items start_date end_date s items = Ok s')
    \/ (forallb (item_defined start_date end_date) items = false
        /\ exists e, count_items start_date end_date s items = Raise e
                     /\ classified e = false).
Proof.
  induction items as [|item items IH]; intros s; simpl.
  - left. eauto.
  - destruct (count_item_cases start_date end_date s item)
      as [[Hd [s1 H1]] | [Hd [e [H1 He]]]]; rewrite Hd, H1; simpl.
    + apply IH.
    + right. eauto.
Qed.

(** C10, as amended: [get_stats] counts a list of items to the end exactly
    when every item is a dict whose [created_at] is a string and, for the
    items inside the window that are open, a string in the format of the
    mask (the end date too); otherwise the run ends in an exception the
    script does not classify.  So an item without [created_at], or with one
    that is no string, always aborts the count, whereas an item without
    [state] is passed over. *)
Theorem stats_defined_exactly (start_date end_date : string)
    (items : list value) (s : stats) :
  ((exists s', count_items start_date end_date s items = Ok s')
   <-> forallb (item_defined start_date end_date) items = true)
  /\ (forall e, count_items start_date end_date s items = Raise e ->
                classified e = false)
  /\ (forall kvs,
        In (VDict kvs) items ->
        (forall c, dict_get kvs "created_at" VNone <> VStr c) ->
        exists e, count_items start_date end_date s items = Raise e
                  /\ classified e = false)
  /\ (forall kvs c s0,
        dict_get kvs "created_at" VNone = VStr c ->
        lookup "state" kvs = None ->
        count_item start_date end_date s0 (VDict kvs) = Ok s0).
Proof.
  destruct (count_items_cases start_date end_date items s)
    as [[Hd [s' H]] | [Hd [e [H He]]]].
  - split; [split; eauto|]. split; [intros e He; congruence|]. split.
    + intros kvs Hin Hno. rewrite forallb_forall in Hd.
      specialize (Hd _ Hin). simpl in Hd.
      destruct (dict_get kvs "created_at" VNone) as [| | |c| |] eqn:Hc;
        try discriminate.
      now destruct (Hno c).
    + intros kvs c s0 Hc Hst. rewrite count_item_dict, Hc.
      destruct (inside start_date end_date kvs); [|reflexivity].
      unfold counted, state_of, dict_get. rewrite Hst. reflexivity.
  - split; [split; [intros [s' Hs']; congruence | congruence]|].
    split; [intros e' He'; congruence|]. split.
    + intros; eauto.
    + intros kvs c s0 Hc Hst. rewrite count_item_dict, Hc.
      destruct (inside start_date end_date kvs); [|reflexivity].
      unfold counted, state_of, dict_get. rewrite Hst. reflexivity.
Qed.

Lemma stats_defined_exactly_witness :
  exists e,
    count_items DEFAULT_START_DATE example_end (mkstats zero zero)
      (example_items ++ [VDict [("state", VStr "open")]])%list = Raise e
    /\ classified e = false.
Proof.
  apply (proj1 (proj2 (proj2 (stats_defined_exactly DEFAULT_START_DATE example_end
           (example_items ++ [VDict [("state", VStr "open")]])%list
           (mkstats zero zero)))) [("state", VStr "open")]).
  - apply in_or_app. right. left. reflexivity.
  - intros c. discriminate.
Defined.

(** C10, as stated, fails: a [created_at] that is a string but no date
    does not make the count undefined when the item is outside the window
    (or not open). *)
Lemma malformed_created_at_tolerated :
  let item := VDict [("created_at", VStr "yesterday"); ("state", VStr "open")] in
  strptime "yesterday" = None
  /\ count_items DEFAULT_START_DATE example_end (mkstats zero zero) [item]
     = Ok (mkstats zero zero).
Proof. split; reflexivity. Qed.

(** ** get_top_contributors: the tally *)

Lemma lookup_app_new (t : tally) (k k' : string) (v : Z) :
  lookup k (t ++ [(k', v)])%list =
  match lookup k t with
  | Some x => Some x
  | None => if (k' =? k)%string then Some v else None
  end.
Proof.
  induction t as [|[k0 n] t IH]; simpl; [reflexivity|].
  destruct (k0 =? k)%string; [reflexivity | exact IH].
Qed.

Lemma lookup_increment (t : tally) (k k' : string) :
  lookup k (increment k' t) =
  if (k' =? k)%string then option_map (fun n => n + 1) (lookup k t)
  else lookup k t.
Proof.
  induction t as [|[k0 n] t IH]; simpl.
  - now destruct (k' =? k)%string.
  - destruct (String.eqb_spec k0 k'), (String.eqb_spec k0 k),
      (String.eqb_spec k' k); subst; simpl;
      rewrite ?String.eqb_refl; try congruence;
      try (destruct (String.eqb_spec k0 k); try congruence);
      try (destruct (String.eqb_spec k' k); try congruence);
      try rewrite IH;
      try (destruct (String.eqb_spec k' k); try congruence);
      reflexivity.
Qed.

Lemma count_commit_ok (st : tally * nat) (commit : value) :
  commit_ok commit = true ->
  exists st1,
    count_commit st commit = Ok st1
    /\ forall l,
         lookup l (fst st1) =
         if authored_by l commit
         then Some (match lookup l (fst st) with Some n => n | None => 0 end
                    + (if negb (is_merge commit) then 1 else 0))
         else lookup l (fst st).
Proof.
  destruct commit as [| | | | |kvs]; try discriminate.
  unfold commit_ok, authored_by, is_merge, author_login, message_of, count_commit.
  simpl.
  destruct (truthy (dict_get kvs "author" (VDict []))) eqn:Ht.
  2:{ intros _. exists st. split; reflexivity. }
  destruct (dict_get kvs "author" (VDict [])) as [| | | | |a]; try discriminate.
  simpl.
  destruct (dict_get a "login" (VStr "")) as [| | |login| |]; try discriminate.
  destruct (dict_get kvs "commit" (VDict [])) as [| | | | |c]; try discriminate.
  simpl.
  destruct (dict_get c "message" (VStr "")) as [| | |message| |];
    try discriminate.
  intros _. unfold has_key.
  destruct (lookup login (fst st)) as [n|] eqn:Hl;
    destruct (startswith message "Merge"); simpl;
    eexists; (split; [reflexivity|]); intros l; simpl;
    rewrite ?lookup_increment, ?lookup_app_new;
    destruct (String.eqb_spec login l); subst; rewrite ?Hl; simpl;
    try (f_equal; lia); try reflexivity;
    now destruct (lookup l (fst st)).
Qed.

Lemma count_commits_ok (commits : list value) :
  forall st,
    forallb commit_ok commits = true ->
    exists st',
      count_commits st commits = Ok st'
      /\ forall l,
           lookup l (fst st') =
           match lookup l (fst st) with
           | Some n => Some (n + non_merge_commits l commits)
           | None => if existsb (authored_by l) commits
                     then Some (non_merge_commits l commits) else None
           end.
Proof.
  induction commits as [|c rest IH]; intros st Hok; simpl in *.
  - exists st. split; [reflexivity|]. intros l.
    destruct (lookup l (fst st)); [f_equal; lia | reflexivity].
  - apply andb_prop in Hok. destruct Hok as [Hc Hrest].
    destruct (count_commit_ok st c Hc) as (st1 & H1 & L1).
    destruct (IH st1 Hrest) as (st' & H' & L').
    exists st'. rewrite H1. simpl. split; [exact H'|].
    intros l. rewrite L', L1.
    destruct (authored_by l c); simpl.
    + destruct (lookup l (fst st)); f_equal; lia.
    + reflexivity.
Qed.

Lemma increment_keys (k : string) (t : tally) :
  map fst (increment k t) = map fst t.
Proof.
  induction t as [|[k0 n] t IH]; simpl; [reflexivity|].
  destruct (k0 =? k)%string; simpl; [reflexivity | now rewrite IH].
Qed.

Lemma lookup_none_not_in (k : string) (t : tally) :
  lookup k t = None -> ~ In k (map fst t).
Proof.
  induction t as [|[k0 n] t IH]; simpl; [tauto|].
  destruct (String.eqb_spec k0 k); [discriminate|].
  intros H [E | Hin]; [congruence | now apply IH].
Qed.

Lemma NoDup_snoc {A} (x : A) (l : list A) :
  ~ In x l -> NoDup l -> NoDup (l ++ [x])%list.
Proof.
  induction l as [|y l IH]; simpl; intros Hx Hnd.
  - constructor; [tauto | constructor].
  - inversion Hnd; subst. constructor.
    + rewrite in_app_iff. simpl. intros [H | [H | []]]; [tauto|].
      apply Hx. now left.
    + apply IH; [tauto | assumption].
Qed.

Lemma count_commit_keys (st st1 : tally * nat) (commit : value) :
  NoDup (map fst (fst st)) ->
  count_commit st commit = Ok st1 ->
  NoDup (map fst (fst st1)).
Proof.
  intros Hnd. unfold count_commit.
  destruct (get commit "author" (VDict [])) as [author|]; simpl; [|discriminate].
  destruct (truthy author); [|now intros H; inversion H; subst].
  destruct (get author "login" (VStr "")) as [login|]; simpl; [|discriminate].
  destruct login as [| | |login| |]; try discriminate.
  destruct (get commit "commit" (VDict [])) as [c|]; simpl; [|discriminate].
  destruct (get c "message" (VStr "")) as [m|]; simpl; [|discriminate].
  destruct m as [| | |m| |]; try discriminate.
  assert (Hreg : NoDup (map fst (fst
            (if has_key login (fst st) then st
             else ((fst st ++ [(login, 0)])%list,
                   if (snd st <? String.length login)%nat
                   then String.length login else snd st))))).
  { unfold has_key. destruct (lookup login (fst st)) eqn:Hl; [exact Hnd|].
    simpl. rewrite map_app. simpl.
    apply NoDup_snoc; [now apply lookup_none_not_in | exact Hnd]. }
  destruct (negb (startswith m "Merge")); intros H; inversion H; subst; simpl.
  - now rewrite increment_keys.
  - exact Hreg.
Qed.

Lemma count_commits_keys (commits : list value) :
  forall st st',
    NoDup (map fst (fst st)) ->
    count_commits st commits = Ok st' ->
    NoDup (map fst (fst st')).
Proof.
  induction commits as [|c rest IH]; intros st st' Hnd H; simpl in H.
  - now inversion H; subst.
  - destruct (count_commit st c) as [st1|] eqn:H1; simpl in H; [|discriminate].
    eapply IH; [|exact H]. eapply count_commit_keys; eauto.
Qed.

Lemma only_merges_count_zero (login : string) (commits : list value) :
  (forall c, In c commits -> authored_by login c = true -> is_merge c = true) ->
  non_merge_commits login commits = 0.
Proof.
  induction commits as [|c rest IH]; intros H; simpl; [reflexivity|].
  rewrite IH by (intros; apply H; simpl; auto).
  destruct (authored_by login c) eqn:Ha; simpl; [|reflexivity].
  rewrite (H c (or_introl eq_refl) Ha). reflexivity.
Qed.

Lemma count_commit_defined (st st1 : tally * nat) (commit : value) :
  count_commit st commit = Ok st1 -> commit_ok commit = true.
Proof.
  destruct commit as [| | | | |kvs]; try discriminate.
  unfold count_commit, commit_ok, author_login, message_of. simpl.
  destruct (truthy (dict_get kvs "author" (VDict []))); [|reflexivity].
  destruct (dict_get kvs "author" (VDict [])) as [| | | | |a]; try discriminate.
  simpl.
  destruct (dict_get a "login" (VStr "")) as [| | |login| |]; try discriminate.
  destruct (dict_get kvs "commit" (VDict [])) as [| | | | |c]; try discriminate.
  simpl.
  destruct (dict_get c "message" (VStr "")) as [| | |message| |];
    try discriminate.
  reflexivity.
Qed.

Lemma count_commits_defined (commits : list value) :
  forall st st',
    count_commits st commits = Ok st' -> forallb commit_ok commits = true.
Proof.
  induction commits as [|c rest IH]; intros st st' H; simpl in *; [reflexivity|].
  destruct (count_commit st c) as [st1|] eqn:H1; simpl in H; [|discriminate].
  now rewrite (count_commit_defined _ _ _ H1), (IH _ _ H).
Qed.

(** C3: the loop over the commits ends normally exactly on the lists of
    commits of the data model (objects with no author, or with an author
    object whose login is a string and with a message that is a string).
    The tally it ends with has each login once, holds a login exactly when
    some commit has an author object with that login, and maps it to the
    number of that author's commits whose message does not start with
    ["Merge"]: 0 when all of them are merges.  A commit without an author
    object leaves the tally as it was.  The four commits of the example
    give A: 1, B: 1. *)
Theorem tally_counts_non_merge_commits (commits : list value) :
  ((exists t n, count_commits ([], O) commits = Ok (t, n))
   <-> forallb commit_ok commits = true)
  /\ (forall t n,
        count_commits ([], O) commits = Ok (t, n) ->
        NoDup (map fst t)
        /\ (forall login,
              lookup login t =
              if existsb (authored_by login) commits
              then Some (non_merge_commits login commits) else None)
        /\ (forall login,
              existsb (authored_by login) commits = true ->
              (forall c, In c commits -> authored_by login c = true ->
                         is_merge c = true) ->
              lookup login t = Some 0))
  /\ (forall st kvs,
        truthy (dict_get kvs "author" (VDict [])) = false ->
        count_commit st (VDict kvs) = Ok st)
  /\ count_commits ([], O) example_commits = Ok ([("A", 1); ("B", 1)], 1%nat).
Proof.
  split; [|split; [|split]].
  - split.
    + intros (t & n & H). eapply count_commits_defined; eauto.
    + intros Hok. destruct (count_commits_ok commits ([], O) Hok) as ([t n] & H & _).
      eauto.
  - intros t n H.
    pose proof (count_commits_defined _ _ _ H) as Hok.
    destruct (count_commits_ok commits ([], O) Hok) as (st' & H' & L).
    assert (E : st' = (t, n)) by congruence. subst st'. simpl in L.
    split.
    { apply (count_commits_keys commits ([], O) (t, n)); [constructor | exact H]. }
    split; [exact L|].
    intros login Hex Hm. rewrite L, Hex. now rewrite only_merges_count_zero.
  - intros st kvs Ht. unfold count_commit. simpl. now rewrite Ht.
  - reflexivity.
Qed.

Lemma tally_counts_non_merge_commits_witness :
  lookup "A" [("A", 1); ("B", 1)] = Some (non_merge_commits "A" example_commits)
  /\ lookup "" [("A", 1); ("B", 1)] = None.
Proof.
  destruct (proj1 (proj2 (tally_counts_non_merge_commits example_commits))
              [("A", 1); ("B", 1)] 1%nat eq_refl) as (_ & L & _).
  split; [exact (L "A") | exact (L "")].
Defined.

(** C1 does not hold of the code: the dates only go into the query string
    of the request, under the names [start_date] and [end_date], and the
    commits that come back are counted without a look at their dates.  A
    commit of 1999 that the server returns for the window 2020 to 2021,
    outside by the test [get_stats] applies to its items, adds 1 to its
    author's row. *)
Theorem contributors_count_outside_window :
  let start_date := "2020-01-01T00:00:00Z" in
  let end_date := "2021-01-01T00:00:00Z" in
  in_window start_date end_date commit_of_1999 = Ok false
  /\ commits_url "o" "r" start_date end_date "master"
     = "https://api.github.com/repos/o/r/commits?start_date=2020-01-01T00:00:00Z&end_date=2021-01-01T00:00:00Z&sha=master&per_page=100"
  /\ count_commits ([], O) [commit_of_1999] = Ok ([("A", 1)], 1%nat)
  /\ get_top_contributors (one_page 200 (Some (VList [commit_of_1999]))) 2
       "o" "r" start_date end_date "master" "" ""
     = Some (Ok ["Top contributors for master branch in o/r repository.";
                 "Analysis start date: 2020-01-01T00:00:00Z, analysis end date: 2021-01-01T00:00:00Z.";
                 "User loginNumber of commits";
                 "A  1"]).
Proof. repeat split; vm_compute; reflexivity. Qed.

(** ** get_items_list *)

Lemma consume_unfold (r : response) (items_list : list value) :
  consume r items_list =
  match take_body r items_list with
  | Raise e => Raise e
  | Ok items_list' =>
      match error_of_status (status_code r) with
      | Some e => Raise e
      | None => Ok (next_url r, items_list')
      end
  end.
Proof.
  unfold consume, take_body, error_of_status.
  destruct (json_loads r) as [body|]; simpl; [|reflexivity].
  destruct (extend items_list body); simpl; [|reflexivity].
  destruct (status_code r =? 404); [reflexivity|].
  destruct (status_code r =? 403); [reflexivity|].
  destruct (status_code r =? 401); reflexivity.
Qed.

Section Fetch.

Variable net : server.
Variables login password : string.

Lemma fetch_loop_turns (n : nat) (st st' : loop_state) :
  turns net login password n st st' ->
  forall k,
    fetch_loop net login password (n + k) (cur st) (got st) (sent st)
    = fetch_loop net login password k (cur st') (got st') (sent st').
Proof.
  induction 1 as [st | n st url' items' st' Hu Hc _ IH]; intros k.
  - reflexivity.
  - cbn [Nat.add fetch_loop]. rewrite Hu, Hc. apply (IH k).
Qed.

Lemma take_body_unclassified (r : response) (items_list : list value) (e : exn) :
  take_body r items_list = Raise e -> classified e = false.
Proof.
  unfold take_body, json_loads.
  destruct (text r) as [[| | | | |]|]; simpl; intros H; inversion H; reflexivity.
Qed.

(** C5, as amended: when a fetch comes, after any number of pages that
    went well, to a page with status 404, 403 or 401, it ends at that
    page: with any fuel above the number of pages before it, the URLs
    requested are those up to this page and no more, and the result is an
    exception.  The body is taken into the list before the status is
    looked at: if that works (the body decodes to an array, object or
    string), the exception is the one of the status; if it does not, the
    exception is the unclassified one of the decoding. *)
Theorem error_status_ends_fetch (url : string) (n : nat) (st : loop_state)
    (e : exn) :
  turns net login password n (mkloop url [] []) st ->
  truthy (VStr (cur st)) = true ->
  error_of_status (status_code (net (cur st) login password)) = Some e ->
  forall fuel, (n < fuel)%nat ->
    exists e',
      get_items_list net fuel url login password
      = Some ((sent st ++ [cur st])%list, Raise e')
      /\ (forall items',
            take_body (net (cur st) login password) (got st) = Ok items' ->
            e' = e)
      /\ (forall e0,
            take_body (net (cur st) login password) (got st) = Raise e0 ->
            e' = e0 /\ classified e0 = false).
Proof.
  intros Ht Hu He fuel Hf.
  unfold get_items_list.
  replace fuel with (n + S (fuel - S n))%nat by lia.
  pose proof (fetch_loop_turns _ _ _ Ht (S (fuel - S n))) as Hl.
  cbn [cur got sent] in Hl. rewrite Hl.
  cbn [fetch_loop]. rewrite Hu, consume_unfold, He.
  destruct (take_body (net (cur st) login password) (got st)) as [items'|e0] eqn:Hb.
  - exists e. split; [reflexivity|]. split; [reflexivity|]. discriminate.
  - exists e0. split; [reflexivity|]. split; [discriminate|].
    intros e1 H1. inversion H1; subst. split; [reflexivity|].
    eapply take_body_unclassified; eauto.
Qed.

End Fetch.

Lemma error_status_ends_fetch_witness :
  exists e',
    get_items_list
      (one_page 404 (Some (VDict [("message", VStr "Not Found")]))) 1 "u" "" ""
    = Some (["u"], Raise e')
    /\ e' = not_found_error.
Proof.
  destruct (error_status_ends_fetch
              (one_page 404 (Some (VDict [("message", VStr "Not Found")])))
              "" "" "u" 0 (mkloop "u" [] []) not_found_error
              (turns_0 _ _ _ _) eq_refl eq_refl 1%nat (Nat.lt_0_1))
    as (e' & H & Hok & _).
  exists e'. split; [exact H|].
  apply (Hok [VStr "message"]). reflexivity.
Defined.

(** C5, as stated, fails: a 404 whose body is no JSON ends the fetch in
    the decoding error, not in the error of the status. *)
Lemma not_found_with_undecodable_body :
  status_code (one_page 404 None "u" "" "") = 404
  /\ get_items_list (one_page 404 None) 1 "u" "" ""
     = Some (["u"], Raise JSONDecodeError)
  /\ JSONDecodeError <> not_found_error.
Proof. repeat split; discriminate. Qed.

(** ** Regular expressions: the matcher decides the language *)

Lemma nullable_lang (r : Re.regex) : Re.nullable r = true <-> Re.lang r "".
Proof.
  split.
  - induction r; simpl; intros H; try discriminate.
    + constructor.
    + apply andb_prop in H. destruct H.
      change "" with ("" ++ ""). constructor; auto.
    + apply orb_prop in H. destruct H; [apply Re.LAltL | apply Re.LAltR]; auto.
    + constructor.
  - intros H. remember "" as w eqn:E.
    induction H; simpl; try discriminate; try reflexivity.
    + apply append_eq_nil in E. destruct E; subst.
      rewrite IHlang1, IHlang2; reflexivity.
    + rewrite IHlang; auto.
    + rewrite IHlang; auto using orb_true_r.
Qed.

Lemma lang_deriv (c : ascii) (r : Re.regex) :
  forall s, Re.lang (Re.deriv c r) s -> Re.lang r (String c s).
Proof.
  induction r; simpl; intros s H.
  - inversion H.
  - inversion H.
  - destruct (p c) eqn:Hp; inversion H; subst. now constructor.
  - destruct (Re.nullable r1) eqn:Hn.
    + inversion H; subst.
      * match goal with X : Re.lang (Re.Cat _ _) _ |- _ => inversion X; subst end.
        change (String c (s1 ++ s2)) with (String c s1 ++ s2).
        constructor; auto.
      * change (String c s) with ("" ++ String c s).
        constructor; [now apply nullable_lang | auto].
    + inversion H; subst.
      change (String c (s1 ++ s2)) with (String c s1 ++ s2).
      constructor; auto.
  - inversion H; subst; [apply Re.LAltL | apply Re.LAltR]; auto.
  - inversion H; subst.
    change (String c (s1 ++ s2)) with (String c s1 ++ s2).
    constructor; auto.
Qed.

Lemma deriv_lang (r : Re.regex) (w : string) :
  Re.lang r w -> forall c s, w = String c s -> Re.lang (Re.deriv c r) s.
Proof.
  induction 1 as [ | p c0 Hp | r1 r2 s1 s2 H1 IH1 H2 IH2 | r1 r2 s0 H1 IH1
                 | r1 r2 s0 H2 IH2 | r0 | r0 c0 s1 s2 H1 IH1 H2 IH2 ];
    intros c s E; simpl.
  - discriminate.
  - inversion E; subst. rewrite Hp. constructor.
  - destruct s1 as [|x s1'].
    + simpl in E. subst s2.
      assert (Hn : Re.nullable r1 = true) by now apply nullable_lang.
      rewrite Hn. apply Re.LAltR. now apply IH2.
    + simpl in E. inversion E; subst.
      assert (Hc : Re.lang (Re.Cat (Re.deriv c r1) r2) (s1' ++ s2))
        by (constructor; [now apply IH1 | exact H2]).
      destruct (Re.nullable r1); [now apply Re.LAltL | exact Hc].
  - apply Re.LAltL. now apply IH1.
  - apply Re.LAltR. now apply IH2.
  - discriminate.
  - simpl in E. inversion E; subst.
    constructor; [now apply IH1 | exact H2].
Qed.

Lemma matches_lang (s : string) :
  forall r, Re.matches r s = true <-> Re.lang r s.
Proof.
  induction s as [|c s IH]; intros r; simpl.
  - apply nullable_lang.
  - rewrite IH. split.
    + apply lang_deriv.
    + intros H. now apply (deriv_lang r _ H).
Qed.

Lemma lang_cat (a b : Re.regex) (w : string) :
  Re.lang (Re.Cat a b) w <->
  exists w1 w2, w = w1 ++ w2 /\ Re.lang a w1 /\ Re.lang b w2.
Proof.
  split.
  - intros H. inversion H; subst. eauto.
  - intros (w1 & w2 & -> & H1 & H2). now constructor.
Qed.

Lemma lang_chr (p : ascii -> bool) (w : string) :
  Re.lang (Re.Chr p) w <-> exists c, w = String c "" /\ p c = true.
Proof.
  split.
  - intros H. inversion H; subst. eauto.
  - intros (c & -> & Hp). now constructor.
Qed.

Lemma lang_eps (w : string) : Re.lang Re.Eps w <-> w = "".
Proof.
  split; [intros H; now inversion H | intros ->; constructor].
Qed.

Lemma lang_lit (s w : string) : Re.lang (Re.lit s) w <-> w = s.
Proof.
  revert w. induction s as [|c s IH]; intros w; simpl.
  - apply lang_eps.
  - rewrite lang_cat. split.
    + intros (w1 & w2 & -> & H1 & H2).
      apply lang_chr in H1. destruct H1 as (x & -> & Hx).
      apply Ascii.eqb_eq in Hx. subst x. apply IH in H2. now subst.
    + intros ->. exists (String c ""), s. split; [reflexivity|].
      split; [apply lang_chr; exists c; split; auto using Ascii.eqb_refl
             | now apply IH].
Qed.

Lemma lang_star_chr (p : ascii -> bool) (w : string) :
  Re.lang (Re.Star (Re.Chr p)) w <-> all_chars p w = true.
Proof.
  split.
  - intros H. remember (Re.Star (Re.Chr p)) as r eqn:E.
    induction H; try discriminate; [reflexivity|].
    inversion E; subst.
    match goal with X : Re.lang (Re.Chr _) _ |- _ => inversion X; subst end.
    simpl. rewrite IHlang2 by reflexivity.
    match goal with X : p _ = true |- _ => now rewrite X end.
  - induction w as [|c w IH]; simpl; intros H; [constructor|].
    apply andb_prop in H. destruct H as [Hc Hw].
    change (String c w) with (String c "" ++ w).
    constructor; [now constructor | auto].
Qed.

Lemma lang_plus_chr (p : ascii -> bool) (w : string) :
  Re.lang (Re.plus (Re.Chr p)) w <->
  negb (w =? "")%string && all_chars p w = true.
Proof.
  unfold Re.plus. rewrite lang_cat. split.
  - intros (w1 & w2 & -> & H1 & H2).
    apply lang_chr in H1. destruct H1 as (c & -> & Hc).
    apply lang_star_chr in H2. simpl. now rewrite Hc, H2.
  - destruct w as [|c w]; simpl; [discriminate|]. intros H.
    apply andb_prop in H. destruct H as [Hc Hw].
    exists (String c ""), w. split; [reflexivity|].
    split; [apply lang_chr; eauto | now apply lang_star_chr].
Qed.

Lemma lang_dollar (w : string) :
  Re.lang Re.dollar w <-> w = "" \/ w = String Re.newline "".
Proof.
  unfold Re.dollar. split.
  - intros H. inversion H; subst.
    + left. now apply lang_eps.
    + right. match goal with X : Re.lang (Re.Chr _) _ |- _ =>
        apply lang_chr in X; destruct X as (c & -> & Hc) end.
      apply Ascii.eqb_eq in Hc. now subst.
  - intros [-> | ->]; [apply Re.LAltL; constructor|].
    apply Re.LAltR. constructor. apply Ascii.eqb_refl.
Qed.

Lemma lang_url_pattern (url : string) :
  Re.lang url_pattern url <-> loosely_github_url url.
Proof.
  unfold url_pattern, loosely_github_url, github_url. split.
  - intros H.
    apply lang_cat in H. destruct H as (w1 & r1 & -> & H1 & H).
    apply lang_lit in H1. subst w1.
    apply lang_cat in H. destruct H as (w2 & r2 & -> & H2 & H).
    apply lang_chr in H2. destruct H2 as (c & -> & Hc).
    apply lang_cat in H. destruct H as (w3 & r3 & -> & H3 & H).
    apply lang_lit in H3. subst w3.
    apply lang_cat in H. destruct H as (owner & r4 & -> & H4 & H).
    apply lang_plus_chr in H4.
    apply lang_cat in H. destruct H as (w5 & r5 & -> & H5 & H).
    apply lang_chr in H5. destruct H5 as (x & -> & Hx).
    apply Ascii.eqb_eq in Hx. subst x.
    apply lang_cat in H. destruct H as (repo & tail & -> & H6 & H7).
    apply lang_plus_chr in H6. apply lang_dollar in H7.
    exists c, owner, repo, tail. repeat split; auto.
    apply negb_true_iff, Ascii.eqb_neq in Hc. exact Hc.
  - intros (c & owner & repo & tail & -> & Hc & Ho & Hr & Ht).
    apply lang_cat. exists "https://github", (String c ("com/" ++ owner ++ "/" ++ repo ++ tail)).
    split; [reflexivity|]. split; [now apply lang_lit|].
    apply lang_cat. exists (String c ""), ("com/" ++ owner ++ "/" ++ repo ++ tail).
    split; [reflexivity|]. split.
    { apply lang_chr. exists c. split; [reflexivity|].
      now apply negb_true_iff, Ascii.eqb_neq. }
    apply lang_cat. exists "com/", (owner ++ "/" ++ repo ++ tail).
    split; [reflexivity|]. split; [now apply lang_lit|].
    apply lang_cat. exists owner, ("/" ++ repo ++ tail).
    split; [reflexivity|]. split; [now apply lang_plus_chr|].
    apply lang_cat. exists "/", (repo ++ tail).
    split; [reflexivity|]. split.
    { apply lang_chr. exists "/"%char. split; reflexivity. }
    apply lang_cat. exists repo, tail.
    split; [reflexivity|]. split; [now apply lang_plus_chr | now apply lang_dollar].
Qed.

(** ** check_url and the extraction of owner and repo *)

Lemma split_app (sep : ascii) (a b : string) :
  all_chars (fun c => negb (Ascii.eqb c sep)) a = true ->
  split sep (a ++ String sep b) = a :: split sep b.
Proof.
  induction a as [|x a IH]; simpl; intros H.
  - now rewrite Ascii.eqb_refl.
  - apply andb_prop in H. destruct H as [Hx Ha].
    apply negb_true_iff in Hx. rewrite Hx, (IH Ha). reflexivity.
Qed.

Lemma split_none (sep : ascii) (a : string) :
  all_chars (fun c => negb (Ascii.eqb c sep)) a = true ->
  split sep a = [a].
Proof.
  induction a as [|x a IH]; simpl; intros H; [reflexivity|].
  apply andb_prop in H. destruct H as [Hx Ha].
  apply negb_true_iff in Hx. rewrite Hx, (IH Ha). reflexivity.
Qed.

Lemma all_chars_impl (p q : ascii -> bool) (s : string) :
  (forall c, p c = true -> q c = true) ->
  all_chars p s = true -> all_chars q s = true.
Proof.
  intros Hpq. induction s as [|c s IH]; simpl; [reflexivity|].
  intros H. apply andb_prop in H. destruct H as [Hc Hs].
  now rewrite (Hpq c Hc), IH.
Qed.

Lemma all_chars_app (p : ascii -> bool) (a b : string) :
  all_chars p (a ++ b) = all_chars p a && all_chars p b.
Proof.
  induction a as [|c a IH]; simpl; [reflexivity|].
  now rewrite IH, andb_assoc.
Qed.

Lemma name_char_no_slash (c : ascii) :
  name_char c = true -> negb (Ascii.eqb c "/") = true.
Proof.
  destruct (Ascii.eqb_spec c "/"); [subst; discriminate | reflexivity].
Qed.

Lemma is_name_no_slash (s : string) :
  is_name s = true ->
  all_chars (fun c => negb (Ascii.eqb c "/")) s = true.
Proof.
  unfold is_name. intros H. apply andb_prop in H. destruct H as [_ H].
  eapply all_chars_impl; [apply name_char_no_slash | exact H].
Qed.

Lemma owner_repo_github_url (c : ascii) (owner repo tail : string) :
  is_name owner = true -> is_name repo = true ->
  tail = "" \/ tail = String Re.newline "" ->
  owner_repo (github_url c owner repo tail)
  = if Ascii.eqb c "/" then Ok ("com", owner) else Ok (owner, repo ++ tail).
Proof.
  intros Ho Hr Ht.
  assert (Hrt : all_chars (fun c => negb (Ascii.eqb c "/")) (repo ++ tail) = true).
  { rewrite all_chars_app, (is_name_no_slash _ Hr).
    destruct Ht as [-> | ->]; reflexivity. }
  unfold owner_repo, github_url.
  change ("https://github" ++ String c ("com/" ++ owner ++ "/" ++ repo ++ tail))
    with ("https:" ++ String "/" ("" ++ String "/"
            ("github" ++ String c ("com" ++ String "/"
               (owner ++ String "/" (repo ++ tail)))))).
  rewrite split_app by reflexivity. rewrite split_app by reflexivity.
  destruct (Ascii.eqb_spec c "/") as [-> | Hc].
  - rewrite split_app by reflexivity. rewrite split_app by reflexivity.
    rewrite split_app by now apply is_name_no_slash.
    rewrite split_none by exact Hrt. reflexivity.
  - change ("github" ++ String c ("com" ++ String "/"
               (owner ++ String "/" (repo ++ tail))))
      with (("github" ++ String c "com") ++ String "/"
               (owner ++ String "/" (repo ++ tail))).
    rewrite split_app.
    2:{ simpl. apply Ascii.eqb_neq in Hc. now rewrite Hc. }
    rewrite split_app by now apply is_name_no_slash.
    rewrite split_none by exact Hrt. reflexivity.
Qed.

(** C2, as amended: on every string [https://github.com/<owner>/<repo>]
    with [<owner>] and [<repo>] non-empty runs of letters, digits and
    hyphens, [check_url] succeeds, returning its argument, and the pair
    [main] extracts from it is [(owner, repo)].  Every string that is not
    of that form, not even with another character in the place of the dot
    or with a newline at the end, fails with the error about the URL: so
    does every URL of a host like [gitlab.com].  Nothing is said of the
    strings that are of the form with such an allowance only. *)
Theorem check_url_accepts_github_only (url : string) :
  (forall owner repo,
      is_name owner = true -> is_name repo = true ->
      url = "https://github.com/" ++ owner ++ "/" ++ repo ->
      check_url url = Ok url /\ owner_repo url = Ok (owner, repo))
  /\ (~ loosely_github_url url -> check_url url = Raise url_error).
Proof.
  pose proof (matches_lang url url_pattern) as Hm.
  rewrite lang_url_pattern in Hm.
  split.
  - intros owner repo Ho Hr Hu.
    assert (E : url = github_url "." owner repo "")
      by (unfold github_url; now rewrite append_empty_r).
    split.
    + unfold check_url.
      assert (Hl : loosely_github_url url).
      { exists "."%char, owner, repo, "".
        repeat split; auto. discriminate. }
      apply Hm in Hl. now rewrite Hl.
    + rewrite E, (owner_repo_github_url "." owner repo "" Ho Hr (or_introl eq_refl)).
      cbn [Ascii.eqb Bool.eqb]. now rewrite append_empty_r.
  - intros H. unfold check_url.
    destruct (Re.matches url_pattern url); [|reflexivity].
    destruct H. now apply Hm.
Qed.

Lemma check_url_accepts_github_only_witness :
  check_url "https://github.com/ddanilenko/script-1" = Ok "https://github.com/ddanilenko/script-1"
  /\ owner_repo "https://github.com/ddanilenko/script-1" = Ok ("ddanilenko", "script-1").
Proof.
  apply (proj1 (check_url_accepts_github_only "https://github.com/ddanilenko/script-1")
           "ddanilenko" "script-1"); reflexivity.
Defined.

(** C2, as stated, fails: a URL of the claimed shape on another host is
    turned down. *)
Lemma other_host_rejected :
  "https://gitlab.com/owner/repo" = "https://" ++ "gitlab.com" ++ "/" ++ "owner" ++ "/" ++ "repo"
  /\ is_name "owner" = true /\ is_name "repo" = true
  /\ check_url "https://gitlab.com/owner/repo" = Raise url_error.
Proof. repeat split. Qed.

(** ** check_date *)

Lemma digit_val_digit_char (n : Z) :
  0 <= n <= 9 -> digit_val (digit_char n) = Some n.
Proof.
  intros H. unfold digit_val, digit_char, in_range.
  rewrite nat_ascii_embedding by lia.
  change (nat_of_ascii "0") with 48%nat.
  change (nat_of_ascii "9") with 57%nat.
  assert (E1 : (48 <=? 48 + Z.to_nat n)%nat = true) by (apply Nat.leb_le; lia).
  assert (E2 : (48 + Z.to_nat n <=? 57)%nat = true) by (apply Nat.leb_le; lia).
  rewrite E1, E2. cbn [andb]. f_equal. lia.
Qed.

Ltac arith_bool :=
  rewrite ?orb_true_iff, ?andb_true_iff, ?Z.eqb_eq, ?Z.leb_le;
  Z.div_mod_to_equations; lia.

Lemma parse_Y_pad4 (y : Z) (rest : string) :
  0 <= y <= 9999 -> parse_Y (pad4 y rest) = Some (y, rest).
Proof.
  intros H. unfold parse_Y, pad4.
  rewrite !digit_val_digit_char by (Z.div_mod_to_equations; lia).
  do 2 f_equal. Z.div_mod_to_equations; lia.
Qed.

Lemma parse_field_pad2 (two : Z -> Z -> bool) (one : Z -> bool)
    (v : Z) (rest : string) :
  0 <= v <= 99 -> two (v / 10) (v mod 10) = true ->
  parse_field two one (pad2 v rest) = Some (v, rest).
Proof.
  intros H Ht. unfold parse_field, pad2.
  rewrite !digit_val_digit_char by (Z.div_mod_to_equations; lia).
  rewrite Ht. do 2 f_equal. Z.div_mod_to_equations; lia.
Qed.

Lemma days_in_month_le (y m : Z) : 28 <= days_in_month y m <= 31.
Proof.
  unfold days_in_month.
  destruct (m =? 2); [destruct (is_leap y); lia|].
  destruct ((m =? 4) || (m =? 6) || (m =? 9) || (m =? 11)); lia.
Qed.

Lemma valid_datetime_bounds (d : datetime) :
  valid_datetime d = true ->
  1 <= year d <= 9999 /\ 1 <= month d <= 12
  /\ 1 <= day d <= days_in_month (year d) (month d)
  /\ 0 <= hour d <= 23 /\ 0 <= minute d <= 59 /\ 0 <= second d <= 59.
Proof.
  unfold valid_datetime. rewrite !andb_true_iff, !Z.leb_le. tauto.
Qed.

Lemma expect_same (c : ascii) (rest : string) :
  expect c (String c rest) = Some rest.
Proof. unfold expect, same_letter. now rewrite Ascii.eqb_refl. Qed.














Lemma parse_field_written (two : Z -> Z -> bool) (one : Z -> bool)
    (v : Z) (f : string) (c : ascii) (rest : string) :
  written v f -> digit_val c = None ->
  two (v / 10) (v mod 10) = true -> one v = true ->
  parse_field two one (f ++ String c rest) = Some (v, String c rest).
Proof.
  intros [[B ->] | [B ->]] Hc Htwo Hone.
  - now apply parse_field_pad2.
  - cbn [append]. unfold parse_field.
    rewrite digit_val_digit_char by lia. now rewrite Hc, Hone.
Qed.

Lemma parse_d_written (v : Z) (f : string) (c : ascii) (rest : string) :
  day_written v f -> digit_val c = None -> 1 <= v <= 31 ->
  parse_d (f ++ String c rest) = Some (v, String c rest).
Proof.
  intros [W | [B ->]] Hc Hv; unfold parse_d.
  - rewrite (parse_field_written _ _ v f c rest W Hc);
      [reflexivity | arith_bool | arith_bool].
  - cbn [append]. unfold parse_field at 1.
    change (digit_val " ") with (@None Z). cbv iota.
    rewrite digit_val_digit_char by lia.
    assert (E : (1 <=? v) = true) by (apply Z.leb_le; lia).
    now rewrite E.
Qed.

Lemma strptime_lenient (s : string) (d : datetime) :
  valid_datetime d = true -> lenient_format d s -> strptime s = Some d.
Proof.
  intros Hv (fm & fd & ft & fh & fmi & fs & fz & -> & Wm & Wd & Ht & Wh & Wmi & Ws & Hz).
  pose proof (valid_datetime_bounds d Hv) as (By & Bm & Bd & Bh & Bmi & Bs).
  pose proof (days_in_month_le (year d) (month d)) as Hdm.
  assert (Hft : exists c, ft = String c "" /\ same_letter "T" c = true
                          /\ digit_val c = None).
  { destruct Ht as [-> | ->]; eexists; repeat split. }
  assert (Hfz : exists c, fz = String c "" /\ same_letter "Z" c = true
                          /\ digit_val c = None).
  { destruct Hz as [-> | ->]; eexists; repeat split. }
  destruct Hft as (ct & -> & Lt & Dt). destruct Hfz as (cz & -> & Lz & Dz).
  unfold strptime, parse_m, parse_H, parse_M, parse_S.
  rewrite parse_Y_pad4 by lia. cbn [obind append].
  rewrite expect_same. cbn [obind].
  rewrite (parse_field_written _ _ (month d) fm "-") by
    (try assumption; try reflexivity; arith_bool).
  cbn [obind append]. rewrite expect_same. cbn [obind].
  rewrite (parse_d_written (day d) fd ct) by (try assumption; lia).
  cbn [obind append]. unfold expect at 1. rewrite Lt. cbn [obind].
  rewrite (parse_field_written _ _ (hour d) fh ":") by
    (try assumption; try reflexivity; arith_bool).
  cbn [obind append]. rewrite expect_same. cbn [obind].
  rewrite (parse_field_written _ _ (minute d) fmi ":") by
    (try assumption; try reflexivity; arith_bool).
  cbn [obind append]. rewrite expect_same. cbn [obind].
  rewrite (parse_field_written _ _ (second d) fs cz) by
    (try assumption; try reflexivity; arith_bool).
  cbn [obind append]. unfold expect at 1. rewrite Lz. cbn [obind].
  destruct d as [y m dd h mi se]. cbn [year month day hour minute second] in *.
  now rewrite Hv.
Qed.





(** * Further properties *)

(** ** get_items_list: pagination *)

Section Pagination.

Variable net : server.
Variables login password : string.





(** The result of the loop does not depend on the fuel: once it has ended
    within some fuel, it ends the same way with any more. *)
Lemma fetch_loop_more_fuel (fuel : nat) :
  forall url items_list sent r,
    fetch_loop net login password fuel url items_list sent = Some r ->
    forall k,
      fetch_loop net login password (fuel + k) url items_list sent = Some r.
Proof.
  induction fuel as [|fuel IH]; intros url items_list sent0 r H k;
    [discriminate|].
  cbn [Nat.add fetch_loop] in *.
  destruct (truthy (VStr url)); [|exact H].
  destruct (consume (net url login password) items_list) as [[url' items']|e];
    [now apply IH | exact H].
Qed.

(** X2: the only exceptions the fetch raises on purpose are those of the
    statuses 404, 403 and 401, and it raises them on the last page it
    asked for; every other status, 500 too, is taken as a success. *)
Theorem classified_error_comes_from_status (fuel : nat) :
  forall url items_list sent0 sent1 e,
    fetch_loop net login password fuel url items_list sent0
    = Some (sent1, Raise e) ->
    classified e = true ->
    exists before last,
      sent1 = (before ++ [last])%list
      /\ error_of_status (status_code (net last login password)) = Some e
      /\ (e = not_found_error \/ e = limit_error \/ e = credentials_error).
Proof.
  induction fuel as [|fuel IH]; intros url items_list sent0 sent1 e H Hc;
    [discriminate|].
  cbn [fetch_loop] in H.
  destruct (truthy (VStr url)); [|discriminate].
  rewrite consume_unfold in H.
  destruct (take_body (net url login password) items_list) as [items'|e0] eqn:Hb.
  - destruct (error_of_status (status_code (net url login password)))
      as [e1|] eqn:He.
    + inversion H; subst. exists sent0, url. split; [reflexivity|].
      split; [exact He|]. unfold error_of_status in He.
      destruct (_ =? 404); [inversion He; auto|].
      destruct (_ =? 403); [inversion He; auto|].
      destruct (_ =? 401); [inversion He; auto | discriminate].
    + eapply IH; eauto.
  - inversion H; subst. apply take_body_unclassified in Hb. congruence.
Qed.

(** X3: the loop has no guard against links that never end: when every
    page goes well and names a next page, no fuel is enough. *)
Theorem endless_links_never_return :
  (forall url items_list,
      exists url' items',
        consume (net url login password) items_list = Ok (url', items')
        /\ truthy (VStr url') = true) ->
  forall fuel url items_list sent0,
    truthy (VStr url) = true ->
    fetch_loop net login password fuel url items_list sent0 = None.
Proof.
  intros Hnext fuel. induction fuel as [|fuel IH]; intros url items_list sent0 Hu;
    [reflexivity|].
  cbn [fetch_loop]. rewrite Hu.
  destruct (Hnext url items_list) as (url' & items' & -> & Hu').
  now apply IH.
Qed.

End Pagination.


Lemma classified_error_comes_from_status_witness :
  exists before last,
    ["u"] = (before ++ [last])%list
    /\ error_of_status
         (status_code
            (one_page 403 (Some (VDict [("message", VStr "rate")])) last "" ""))
       = Some limit_error.
Proof.
  destruct (classified_error_comes_from_status
              (one_page 403 (Some (VDict [("message", VStr "rate")]))) "" "" 1
              "u" [] [] ["u"] limit_error eq_refl eq_refl)
    as (before & last & H1 & H2 & _).
  exists before, last. split; assumption.
Defined.

Lemma endless_links_never_return_witness :
  fetch_loop looping_page "" "" 1000 "start" [] [] = None.
Proof.
  apply (endless_links_never_return looping_page "" "").
  - intros url items_list. eexists. eexists. split; reflexivity.
  - reflexivity.
Defined.

(** ** get_top_contributors: the order of the rows *)

Lemma insert_desc_perm (x : string * Z) (l : tally) :
  Permutation (insert_desc x l) (x :: l).
Proof.
  induction l as [|y l IH]; simpl; [reflexivity|].
  destruct (snd y <=? snd x); [reflexivity|].
  rewrite IH. apply perm_swap.
Qed.

Lemma sorted_desc_perm (t : tally) : Permutation (sorted_desc t) t.
Proof.
  induction t as [|x t IH]; simpl; [reflexivity|].
  rewrite insert_desc_perm. now constructor.
Qed.

Lemma insert_desc_sorted (x : string * Z) (l : tally) :
  StronglySorted no_fewer l -> StronglySorted no_fewer (insert_desc x l).
Proof.
  induction 1 as [|y l Hs IH Hy]; simpl.
  - repeat constructor.
  - destruct (Z.leb_spec (snd y) (snd x)) as [Hle | Hlt].
    + constructor; [now constructor|].
      constructor; [exact Hle|].
      eapply Forall_impl; [|exact Hy].
      unfold no_fewer. intros z Hz. lia.
    + constructor; [exact IH|].
      rewrite (insert_desc_perm x l).
      constructor; [unfold no_fewer; lia | exact Hy].
Qed.

Lemma sorted_desc_sorted (t : tally) : StronglySorted no_fewer (sorted_desc t).
Proof.
  induction t as [|x t IH]; simpl; [constructor | now apply insert_desc_sorted].
Qed.

Lemma insert_desc_with_count (c : Z) (x : string * Z) (l : tally) :
  with_count c (insert_desc x l) = with_count c (x :: l).
Proof.
  unfold with_count. induction l as [|y l IH]; simpl; [reflexivity|].
  destruct (Z.leb_spec (snd y) (snd x)) as [Hle | Hlt]; [reflexivity|].
  simpl in *. rewrite IH.
  destruct (Z.eqb_spec (snd x) c), (Z.eqb_spec (snd y) c); try reflexivity.
  lia.
Qed.

(** X4: the rows are sorted as [sorted(..., reverse=True)] sorts: the
    same entries, counts in descending order, and entries with the same
    count in the order in which their logins were first seen. *)
Theorem sorted_desc_stable_descending (t : tally) :
  Permutation (sorted_desc t) t
  /\ StronglySorted no_fewer (sorted_desc t)
  /\ forall c, with_count c (sorted_desc t) = with_count c t.
Proof.
  split; [apply sorted_desc_perm|]. split; [apply sorted_desc_sorted|].
  intros c. induction t as [|x t IH]; [reflexivity|].
  simpl. rewrite insert_desc_with_count. unfold with_count in *. simpl.
  now rewrite IH.
Qed.

Lemma sorted_app_dominates (l1 l2 : tally) :
  StronglySorted no_fewer (l1 ++ l2) ->
  forall x y, In x l1 -> In y l2 -> no_fewer x y.
Proof.
  induction l1 as [|z l1 IH]; simpl; intros Hs x y Hx Hy; [contradiction|].
  inversion Hs as [|? ? Hs' Hz]; subst.
  destruct Hx as [-> | Hx].
  - rewrite Forall_forall in Hz. apply Hz, in_or_app. now right.
  - now apply IH.
Qed.

(** X5: the report shows at most thirty contributors, all of them from
    the tally, and none that is left out has more commits than one that is
    shown. *)
Theorem top_thirty_dominate (t : tally) :
  (List.length (slice 0 30 (sorted_desc t)) <= 30)%nat
  /\ List.length (slice 0 30 (sorted_desc t)) = Nat.min 30 (List.length t)
  /\ (forall x, In x (slice 0 30 (sorted_desc t)) -> In x t)
  /\ (forall x y,
        In x (slice 0 30 (sorted_desc t)) ->
        In y (skipn 30 (sorted_desc t)) ->
        snd y <= snd x).
Proof.
  change (slice 0 30 (sorted_desc t)) with (firstn 30 (sorted_desc t)).
  assert (Hlen : List.length (sorted_desc t) = List.length t)
    by apply Permutation_length, sorted_desc_perm.
  split; [apply firstn_le_length|].
  split; [now rewrite length_firstn, Hlen|].
  split.
  - intros x Hx. apply (Permutation_in _ (sorted_desc_perm t)).
    rewrite <- (firstn_skipn 30 (sorted_desc t)). apply in_or_app.
    now left.
  - intros x y Hx Hy.
    apply (sorted_app_dominates (firstn 30 (sorted_desc t))
             (skipn 30 (sorted_desc t))); auto.
    rewrite firstn_skipn. apply sorted_desc_sorted.
Qed.

Lemma top_thirty_dominate_witness : In ("A", 1) [("A", 1); ("B", 1)].
Proof.
  apply (proj1 (proj2 (proj2 (top_thirty_dominate [("A", 1); ("B", 1)])))).
  left. reflexivity.
Defined.

(** ** get_top_contributors: the totals and the width of the table *)

Lemma max_len_app (t : tally) (k : string) (v : Z) :
  max_len (t ++ [(k, v)])%list = Nat.max (max_len t) (String.length k).
Proof.
  unfold max_len. induction t as [|[k0 n] t IH]; simpl; [lia|].
  rewrite IH. lia.
Qed.

Lemma max_len_keys (t t' : tally) :
  map fst t = map fst t' -> max_len t = max_len t'.
Proof.
  unfold max_len. revert t'.
  induction t as [|[k n] t IH]; intros [|[k' n'] t'] H; simpl in *;
    try discriminate; [reflexivity|].
  inversion H; subst. now rewrite (IH t').
Qed.

Lemma total_app (t : tally) (k : string) (v : Z) :
  total (t ++ [(k, v)])%list = total t + v.
Proof.
  unfold total. induction t as [|[k0 n] t IH]; simpl; [lia|].
  rewrite IH. lia.
Qed.

Lemma total_increment (k : string) (t : tally) :
  has_key k t = true -> total (increment k t) = total t + 1.
Proof.
  unfold has_key, total. induction t as [|[k0 n] t IH]; simpl; [discriminate|].
  destruct (k0 =? k)%string; simpl; intros H; [lia|].
  rewrite (IH H). lia.
Qed.

Lemma has_key_app_new (t : tally) (k : string) (v : Z) :
  has_key k (t ++ [(k, v)])%list = true.
Proof.
  unfold has_key. rewrite lookup_app_new, String.eqb_refl.
  now destruct (lookup k t).
Qed.

Lemma nonneg_increment (k : string) (t : tally) :
  Forall (fun kv => 0 <= snd kv) t ->
  Forall (fun kv => 0 <= snd kv) (increment k t).
Proof.
  induction 1 as [|[k0 n] t H0 Ht IH]; simpl; [constructor|].
  destruct (k0 =? k)%string; constructor; simpl in *; auto; lia.
Qed.

(** What the loop keeps true of its state. *)
Lemma count_commit_keeps (st st1 : tally * nat) (c : value) :
  count_commit st c = Ok st1 ->
  (snd st = max_len (fst st) -> snd st1 = max_len (fst st1))
  /\ total (fst st1) = total (fst st) + (if counted_commit c then 1 else 0)
  /\ (Forall (fun kv => 0 <= snd kv) (fst st) ->
      Forall (fun kv => 0 <= snd kv) (fst st1)).
Proof.
  destruct c as [| | | | |kvs]; try discriminate.
  unfold count_commit, counted_commit, is_merge, author_login, message_of.
  simpl.
  destruct (truthy (dict_get kvs "author" (VDict []))).
  2:{ intros H. inversion H; subst. repeat split; auto. lia. }
  destruct (dict_get kvs "author" (VDict [])) as [| | | | |a]; try discriminate.
  simpl.
  destruct (dict_get a "login" (VStr "")) as [| | |login| |]; try discriminate.
  destruct (dict_get kvs "commit" (VDict [])) as [| | | | |cm]; try discriminate.
  simpl.
  destruct (dict_get cm "message" (VStr "")) as [| | |message| |];
    try discriminate.
  destruct st as [t n]. cbn [fst snd].
  destruct (has_key login t) eqn:Hk; cbn [fst snd];
    destruct (startswith message "Merge"); cbn [negb];
    intros H; inversion H; subst; cbn [fst snd]; clear H.
  - repeat split; auto. lia.
  - repeat split.
    + intros ->. apply max_len_keys. now rewrite increment_keys.
    + now apply total_increment.
    + apply nonneg_increment.
  - repeat split.
    + intros ->. rewrite max_len_app.
      destruct (Nat.ltb_spec (max_len t) (String.length login)); lia.
    + rewrite total_app. lia.
    + intros Hn. apply Forall_app. split; [exact Hn|].
      constructor; [simpl; lia | constructor].
  - repeat split.
    + intros ->.
      rewrite (max_len_keys (increment login (t ++ [(login, 0)])%list)
                 (t ++ [(login, 0)])%list) by apply increment_keys.
      rewrite max_len_app.
      destruct (Nat.ltb_spec (max_len t) (String.length login)); lia.
    + rewrite total_increment by apply has_key_app_new.
      rewrite total_app. lia.
    + intros Hn. apply nonneg_increment, Forall_app. split; [exact Hn|].
      constructor; [simpl; lia | constructor].
Qed.

Lemma count_commits_keep (commits : list value) :
  forall st st',
    count_commits st commits = Ok st' ->
    (snd st = max_len (fst st) -> snd st' = max_len (fst st'))
    /\ total (fst st')
       = total (fst st) + Z.of_nat (List.length (filter counted_commit commits))
    /\ (Forall (fun kv => 0 <= snd kv) (fst st) ->
        Forall (fun kv => 0 <= snd kv) (fst st')).
Proof.
  induction commits as [|c rest IH]; intros st st' H; simpl in H.
  - inversion H; subst. simpl. repeat split; auto. lia.
  - destruct (count_commit st c) as [st1|] eqn:H1; simpl in H; [|discriminate].
    destruct (count_commit_keeps _ _ _ H1) as (M1 & T1 & N1).
    destruct (IH _ _ H) as (M & T & N).
    repeat split; auto.
    rewrite T, T1. simpl. destruct (counted_commit c); simpl; lia.
Qed.

(** X6: the counts of the tally are never negative and add up to the
    number of commits that have an author and are no merge: every such
    commit is counted once, under one login, and nothing else is. *)
Theorem tally_total (commits : list value) (t : tally) (n : nat) :
  count_commits ([], O) commits = Ok (t, n) ->
  Forall (fun kv => 0 <= snd kv) t
  /\ total t = Z.of_nat (List.length (filter counted_commit commits)).
Proof.
  intros H. destruct (count_commits_keep _ _ _ H) as (_ & T & N).
  simpl in *. split; [apply N; constructor | exact T].
Qed.

Lemma tally_total_witness :
  total [("A", 1); ("B", 1)] = Z.of_nat (List.length (filter counted_commit example_commits)).
Proof.
  apply (proj2 (tally_total example_commits [("A", 1); ("B", 1)] 1 eq_refl)).
Defined.

Lemma length_app_string (a b : string) :
  String.length (a ++ b) = (String.length a + String.length b)%nat.
Proof. induction a as [|c a IH]; simpl; [reflexivity | now rewrite IH]. Qed.

Lemma length_spaces (n : nat) : String.length (spaces n) = n.
Proof. induction n as [|n IH]; simpl; [reflexivity | now rewrite IH]. Qed.

Lemma ljust_length (s : string) (w : nat) :
  String.length (ljust s w) = Nat.max (String.length s) w.
Proof. unfold ljust. rewrite length_app_string, length_spaces. lia. Qed.

Lemma ljust_short (s : string) (w : nat) :
  (w <= String.length s)%nat -> ljust s w = s.
Proof.
  intros H. unfold ljust.
  replace (w - String.length s)%nat with O by lia.
  apply append_empty_r.
Qed.

Lemma max_len_bound (t : tally) (k : string) (v : Z) :
  In (k, v) t -> (String.length k <= max_len t)%nat.
Proof.
  unfold max_len. induction t as [|[k0 n0] t IH]; simpl; [contradiction|].
  intros [H | H]; [inversion H; subst; lia|].
  specialize (IH H). lia.
Qed.

(** X7: the width of the first column is the length of the longest login
    plus two, so in every row the login is followed by at least two spaces
    and the counts start in the same column.  The heading is not padded
    when no login has more than eight characters: it then reads
    [User loginNumber of commits]. *)
Theorem contributor_rows_aligned (commits : list value) (t : tally) (n : nat) :
  count_commits ([], O) commits = Ok (t, n) ->
  n = max_len t
  /\ (forall login c,
        In (login, c) t ->
        String.length (ljust login (n + 2)) = (n + 2)%nat
        /\ exists k, (2 <= k)%nat /\ ljust login (n + 2) = login ++ spaces k)
  /\ (forall owner repo start_date end_date branch,
        List.length (contributors_report owner repo start_date end_date branch (t, n))
        = (3 + Nat.min 30 (List.length t))%nat)
  /\ (forall owner repo start_date end_date branch,
        (n <= 8)%nat ->
        nth 2 (contributors_report owner repo start_date end_date branch (t, n)) ""
        = "User loginNumber of commits").
Proof.
  intros H. destruct (count_commits_keep _ _ _ H) as (M & _ & _).
  simpl in M. specialize (M eq_refl).
  split; [exact M|]. split; [|split].
  - intros login c Hin. pose proof (max_len_bound _ _ _ Hin) as Hb.
    split.
    + rewrite ljust_length. lia.
    + exists (n + 2 - String.length login)%nat. split; [lia | reflexivity].
  - intros owner repo start_date end_date branch.
    unfold contributors_report. cbn [fst snd List.length].
    rewrite length_map.
    rewrite (proj1 (proj2 (top_thirty_dominate t))). reflexivity.
  - intros owner repo start_date end_date branch Hn.
    unfold contributors_report. cbn [fst snd nth].
    rewrite ljust_short; [reflexivity | simpl; lia].
Qed.

Lemma contributor_rows_aligned_witness :
  String.length (ljust "A" (1 + 2)) = (1 + 2)%nat.
Proof.
  apply (proj1 (proj2 (contributor_rows_aligned example_commits
           [("A", 1); ("B", 1)] 1 eq_refl)) "A" 1).
  left. reflexivity.
Defined.

(** ** get_stats: what the counters hold at the end *)

Lemma count_item_adds (start_date end_date : string) (s s' : stats)
    (item : value) :
  count_item start_date end_date s item = Ok s' ->
  forall t,
    c_open (dict_by t s')
    = c_open (dict_by t s) + one_if (filed start_date end_date t "open" item)
    /\ c_closed (dict_by t s')
       = c_closed (dict_by t s) + one_if (filed start_date end_date t "closed" item)
    /\ c_old (dict_by t s')
       = c_old (dict_by t s)
         + one_if (filed start_date end_date t "open" item && overdue end_date t item).
Proof.
  destruct item as [| | | | |kvs]; try discriminate.
  rewrite count_item_dict. unfold filed, overdue, age_days.
  destruct (dict_get kvs "created_at" VNone) as [| | |c| |]; try discriminate.
  destruct (inside start_date end_date kvs).
  2:{ intros H t. inversion H; subst. simpl. lia. }
  unfold counted. cbn [andb].
  destruct (eq_str (state_of kvs) "open") eqn:Ho.
  - rewrite (open_not_closed _ Ho).
    destruct (strptime c) as [dc|]; [|discriminate].
    destruct (strptime end_date) as [de|]; [|discriminate].
    intros H t. inversion H; subst s'. clear H.
    destruct (type_of kvs), t; cbn [type_eqb andb one_if OLD_DAYS_NUM];
      destruct (_ >? _); destruct s as [[] []]; simpl; lia.
  - intros H t. inversion H; subst s'. clear H.
    destruct (eq_str (state_of kvs) "closed");
      destruct (type_of kvs), t, s as [[] []]; simpl; lia.
Qed.

Lemma how_many_cons (p : value -> bool) (item : value) (items : list value) :
  how_many p (item :: items) = one_if (p item) + how_many p items.
Proof.
  unfold how_many, one_if. cbn [filter].
  destruct (p item); cbn [List.length]; lia.
Qed.

(** X8: when [get_stats] has counted a list of items, each of its six
    counters holds the number of items it stands for: open and closed are
    the items inside the window of that type and state, old the open ones
    among them whose age is above the threshold of the type. *)
Theorem stats_are_counts (start_date end_date : string) (items : list value) :
  forall s0 s,
    count_items start_date end_date s0 items = Ok s ->
    forall t,
      c_open (dict_by t s)
      = c_open (dict_by t s0) + how_many (filed start_date end_date t "open") items
      /\ c_closed (dict_by t s)
         = c_closed (dict_by t s0)
           + how_many (filed start_date end_date t "closed") items
      /\ c_old (dict_by t s)
         = c_old (dict_by t s0)
           + how_many (fun item => filed start_date end_date t "open" item
                                   && overdue end_date t item) items.
Proof.
  induction items as [|item items IH]; intros s0 s H t; simpl in H.
  - inversion H; subst. unfold how_many. simpl. lia.
  - destruct (count_item start_date end_date s0 item) as [s1|] eqn:H1;
      simpl in H; [|discriminate].
    destruct (count_item_adds _ _ _ _ _ H1 t) as (A1 & A2 & A3).
    destruct (IH _ _ H t) as (B1 & B2 & B3).
    rewrite !how_many_cons. lia.
Qed.

Lemma stats_are_counts_witness :
  c_open (pull_requests (mkstats (mkc 2 0 1) (mkc 1 1 1)))
  = 0 + how_many (filed DEFAULT_START_DATE example_end pull_request "open")
          example_items.
Proof.
  apply (proj1 (stats_are_counts DEFAULT_START_DATE example_end example_items
                  (mkstats zero zero) (mkstats (mkc 2 0 1) (mkc 1 1 1))
                  eq_refl pull_request)).
Defined.

Lemma how_many_perm (p : value -> bool) (l l' : list value) :
  Permutation l l' -> how_many p l = how_many p l'.
Proof.
  induction 1 as [|x l l' _ IH|x y l|l l' l'' _ IH1 _ IH2];
    rewrite ?how_many_cons; lia.
Qed.

Lemma stats_ext (s s' : stats) :
  (forall t, c_open (dict_by t s) = c_open (dict_by t s')
             /\ c_closed (dict_by t s) = c_closed (dict_by t s')
             /\ c_old (dict_by t s) = c_old (dict_by t s')) ->
  s = s'.
Proof.
  intros H. destruct (H pull_request) as (P1 & P2 & P3).
  destruct (H issue) as (I1 & I2 & I3).
  destruct s as [[] []], s' as [[] []]. simpl in *. congruence.
Qed.

(** X9: the statistics do not depend on the order in which the items
    arrive: a list that [get_stats] counts to the end gives the same six
    counters in any other order. *)
Theorem stats_ignore_order (start_date end_date : string)
    (items items' : list value) (s0 s : stats) :
  Permutation items items' ->
  count_items start_date end_date s0 items = Ok s ->
  count_items start_date end_date s0 items' = Ok s.
Proof.
  intros Hp H.
  destruct (count_items_cases start_date end_date items s0)
    as [[Hd _] | [_ (e & He & _)]]; [|congruence].
  destruct (count_items_cases start_date end_date items' s0)
    as [[_ (s' & H')] | [Hd' _]].
  - rewrite H'. f_equal. apply stats_ext. intros t.
    destruct (stats_are_counts _ _ _ _ _ H t) as (A1 & A2 & A3).
    destruct (stats_are_counts _ _ _ _ _ H' t) as (B1 & B2 & B3).
    rewrite A1, A2, A3, B1, B2, B3.
    rewrite !(how_many_perm _ _ _ Hp). auto.
  - rewrite forallb_forall in Hd.
    assert (Hall : forallb (item_defined start_date end_date) items' = true).
    { apply forallb_forall. intros x Hx. apply Hd.
      apply (Permutation_in _ (Permutation_sym Hp) Hx). }
    congruence.
Qed.

Lemma stats_ignore_order_witness :
  count_items DEFAULT_START_DATE example_end (mkstats zero zero)
    (rev example_items) = Ok (mkstats (mkc 2 0 1) (mkc 1 1 1)).
Proof.
  apply (stats_ignore_order DEFAULT_START_DATE example_end example_items
           (rev example_items) (mkstats zero zero)).
  - apply Permutation_rev.
  - reflexivity.
Defined.

(** ** get_stats: the window *)

Lemma str_lt_trans (a : string) :
  forall b c, str_lt a b = true -> str_lt b c = true -> str_lt a c = true.
Proof.
  induction a as [|x a IH]; intros [|y b] [|z c]; simpl; try discriminate;
    try reflexivity.
  destruct (Nat.ltb_spec (nat_of_ascii x) (nat_of_ascii y)),
           (Nat.ltb_spec (nat_of_ascii y) (nat_of_ascii x)),
           (Nat.ltb_spec (nat_of_ascii y) (nat_of_ascii z)),
           (Nat.ltb_spec (nat_of_ascii z) (nat_of_ascii y)),
           (Nat.ltb_spec (nat_of_ascii x) (nat_of_ascii z)),
           (Nat.ltb_spec (nat_of_ascii z) (nat_of_ascii x));
    try discriminate; try reflexivity; try lia.
  apply IH.
Qed.

Lemma inside_needs_window (start_date end_date : string)
    (kvs : list (string * value)) :
  inside start_date end_date kvs = true -> str_lt start_date end_date = true.
Proof.
  unfold inside. destruct (dict_get kvs "created_at" VNone); try discriminate.
  intros H. apply andb_prop in H. destruct H. eapply str_lt_trans; eauto.
Qed.

(** X10: when [end_date] does not sort after [start_date] (the order is
    that of the strings), no item is inside the window: whatever list is
    counted to the end, the counters are left as they were, all zero in
    [get_stats]. *)
Theorem empty_window_counts_nothing (start_date end_date : string)
    (items : list value) :
  str_lt start_date end_date = false ->
  forall s0 s,
    count_items start_date end_date s0 items = Ok s -> s = s0.
Proof.
  intros Hw. induction items as [|item items IH]; intros s0 s H; simpl in H.
  - now inversion H.
  - destruct (count_item start_date end_date s0 item) as [s1|] eqn:H1;
      simpl in H; [|discriminate].
    assert (E : s1 = s0).
    { destruct item as [| | | | |kvs]; try discriminate.
      rewrite count_item_dict in H1.
      destruct (dict_get kvs "created_at" VNone); try discriminate.
      destruct (inside start_date end_date kvs) eqn:Hin; [|now inversion H1].
      apply inside_needs_window in Hin. congruence. }
    subst s1. now apply IH.
Qed.

Lemma empty_window_counts_nothing_witness :
  count_items example_end DEFAULT_START_DATE (mkstats zero zero) example_items
  = Ok (mkstats zero zero).
Proof.
  destruct (count_items example_end DEFAULT_START_DATE (mkstats zero zero)
              example_items) as [s|e] eqn:H; [|vm_compute in H; discriminate].
  f_equal.
  apply (empty_window_counts_nothing example_end DEFAULT_START_DATE
           example_items eq_refl (mkstats zero zero) s H).
Defined.

(** X11: an open item is old from the threshold plus one full days on:
    with both dates parsed, [is_old_pr] answers true exactly when the time
    from creation to [end_date] is at least (threshold + 1) times 86400
    seconds, so a pull request of 30 days and 23 hours is not old yet. *)
Theorem old_from_full_days (c e : string) (dc de : datetime) (t : item_type) :
  strptime c = Some dc -> strptime e = Some de ->
  exists b,
    is_old_pr (VStr c) e t = Ok b
    /\ (b = true <->
        (OLD_DAYS_NUM t + 1) * 86400 <= seconds_of de - seconds_of dc).
Proof.
  intros Hc He. unfold is_old_pr, strptime_value. rewrite Hc, He. simpl.
  eexists. split; [reflexivity|].
  unfold timedelta_days. rewrite Z.gtb_lt.
  assert (H : 0 < 86400) by lia.
  pose proof (Z.div_mod (seconds_of de - seconds_of dc) 86400 ltac:(lia)).
  pose proof (Z.mod_pos_bound (seconds_of de - seconds_of dc) 86400 H).
  split; intros; nia.
Qed.

Lemma old_from_full_days_witness :
  exists b,
    is_old_pr (VStr "2021-01-29T01:00:00Z") example_end pull_request = Ok b
    /\ b = false.
Proof.
  destruct (old_from_full_days "2021-01-29T01:00:00Z" example_end
              (mkdt 2021 1 29 1 0 0) (mkdt 2021 3 1 0 0 0) pull_request
              eq_refl eq_refl) as (b & H & Hb).
  exists b. split; [exact H|].
  destruct b; [|reflexivity].
  assert (Hn : (OLD_DAYS_NUM pull_request + 1) * 86400
               <= seconds_of (mkdt 2021 3 1 0 0 0)
                  - seconds_of (mkdt 2021 1 29 1 0 0)) by now apply Hb.
  vm_compute in Hn. now destruct Hn.
Defined.

(** ** check_url, then main *)

(** X12: a URL that [check_url] has let through can always be taken apart
    by [main]: the unpacking of [url.split("/")[3:5]] does not fail, the
    owner it yields is a non-empty run of letters, digits and hyphens, and
    the repo is such a run, followed by a newline at most. *)
Theorem validated_url_unpacks (url : string) :
  check_url url = Ok url ->
  exists owner repo name tail,
    owner_repo url = Ok (owner, repo)
    /\ is_name owner = true
    /\ repo = name ++ tail /\ is_name name = true
    /\ (tail = "" \/ tail = String Re.newline "").
Proof.
  unfold check_url. destruct (Re.matches url_pattern url) eqn:Hm; [|discriminate].
  intros _. apply matches_lang, lang_url_pattern in Hm.
  destruct Hm as (c & owner & repo & tail & -> & Hc & Ho & Hr & Ht).
  rewrite (owner_repo_github_url c owner repo tail Ho Hr Ht).
  destruct (Ascii.eqb c "/").
  - exists "com", owner, owner, "". rewrite append_empty_r.
    repeat split; auto.
  - exists owner, (repo ++ tail), repo, tail. repeat split; auto.
Qed.

Lemma validated_url_unpacks_witness :
  exists owner repo name tail,
    owner_repo "https://github.com/rocq-prover/rocq" = Ok (owner, repo)
    /\ is_name owner = true
    /\ repo = name ++ tail /\ is_name name = true
    /\ (tail = "" \/ tail = String Re.newline "").
Proof.
  apply (validated_url_unpacks "https://github.com/rocq-prover/rocq").
  reflexivity.
Defined.

(** ** get_top_contributors: the order of the commits *)

Lemma non_merge_commits_perm (login : string) (l l' : list value) :
  Permutation l l' -> non_merge_commits login l = non_merge_commits login l'.
Proof.
  induction 1 as [|x l l' _ IH|x y l|l l' l'' _ IH1 _ IH2]; simpl; lia.
Qed.

Lemma existsb_perm {A} (p : A -> bool) (l l' : list A) :
  Permutation l l' -> existsb p l = existsb p l'.
Proof.
  induction 1 as [|x l l' _ IH|x y l|l l' l'' _ IH1 _ IH2]; simpl.
  - reflexivity.
  - now rewrite IH.
  - destruct (p x), (p y); reflexivity.
  - congruence.
Qed.

Lemma forallb_perm {A} (p : A -> bool) (l l' : list A) :
  Permutation l l' -> forallb p l = forallb p l'.
Proof.
  induction 1 as [|x l l' _ IH|x y l|l l' l'' _ IH1 _ IH2]; simpl.
  - reflexivity.
  - now rewrite IH.
  - destruct (p x), (p y); reflexivity.
  - congruence.
Qed.

Lemma lookup_in_keys (k : string) (t : tally) :
  In k (map fst t) <-> lookup k t <> None.
Proof.
  induction t as [|[k0 n] t IH]; simpl; [tauto|].
  destruct (String.eqb_spec k0 k); [subst; split; [discriminate | auto]|].
  rewrite <- IH. split; [intros [E | H]; [congruence | exact H] | auto].
Qed.

Lemma max_len_le (t t' : tally) :
  (forall k, In k (map fst t) -> In k (map fst t')) ->
  (max_len t <= max_len t')%nat.
Proof.
  induction t as [|[k n] t IH]; simpl; intros H; [lia|].
  assert (Hk : In k (map fst t')) by (apply H; now left).
  apply in_map_iff in Hk. destruct Hk as ([k' v] & E & Hin). simpl in E. subst k'.
  pose proof (max_len_bound _ _ _ Hin).
  assert (max_len t <= max_len t')%nat by (apply IH; intros; apply H; now right).
  unfold max_len in *. simpl. lia.
Qed.

(** X13: the counts do not depend on the order in which the commits
    arrive: on any other order of the same commits the loop ends normally
    too, with the same logins, the same count for each and the same column
    width; only the order of the logins in the tally, which settles ties
    in the report, can differ. *)
Theorem tally_ignores_order (commits commits' : list value) (t : tally) (n : nat) :
  Permutation commits commits' ->
  count_commits ([], O) commits = Ok (t, n) ->
  exists t',
    count_commits ([], O) commits' = Ok (t', n)
    /\ (forall login, lookup login t' = lookup login t)
    /\ Permutation (map fst t') (map fst t).
Proof.
  intros Hp H.
  pose proof (count_commits_defined _ _ _ H) as Hok.
  assert (Hok' : forallb commit_ok commits' = true)
    by now rewrite <- (forallb_perm _ _ _ Hp).
  destruct (count_commits_ok commits ([], O) Hok) as (st & Hst & L).
  assert (E : st = (t, n)) by congruence. subst st. simpl in L.
  destruct (count_commits_ok commits' ([], O) Hok') as ([t' n'] & H' & L').
  simpl in L'.
  assert (Hl : forall login, lookup login t' = lookup login t).
  { intros login. rewrite L, L'.
    now rewrite (existsb_perm _ _ _ Hp), (non_merge_commits_perm _ _ _ Hp). }
  assert (Hkeys : forall k, In k (map fst t') <-> In k (map fst t)).
  { intros k. now rewrite !lookup_in_keys, Hl. }
  assert (Hn : n' = n).
  { destruct (count_commits_keep _ _ _ H) as (M & _ & _).
    destruct (count_commits_keep _ _ _ H') as (M' & _ & _).
    simpl in M, M'. rewrite (M eq_refl), (M' eq_refl).
    apply Nat.le_antisymm; apply max_len_le; intros k; apply Hkeys. }
  subst n'. exists t'. split; [exact H'|]. split; [exact Hl|].
  apply NoDup_Permutation; [| |exact Hkeys].
  - apply (count_commits_keys commits' ([], O) (t', n)); [constructor | exact H'].
  - apply (count_commits_keys commits ([], O) (t, n)); [constructor | exact H].
Qed.

Lemma tally_ignores_order_witness :
  exists t',
    count_commits ([], O) (rev example_commits) = Ok (t', 1%nat)
    /\ lookup "A" t' = Some 1.
Proof.
  destruct (tally_ignores_order example_commits (rev example_commits)
              [("A", 1); ("B", 1)] 1 (Permutation_rev _) eq_refl)
    as (t' & H & L & _).
  exists t'. split; [exact H | now rewrite L].
Defined.

(** ** The order of the strings and the order of the dates *)

Lemma nat_of_digit_char (n : Z) :
  0 <= n <= 9 -> nat_of_ascii (digit_char n) = (48 + Z.to_nat n)%nat.
Proof. intros H. unfold digit_char. apply nat_ascii_embedding. lia. Qed.

Lemma str_lt_digits (a b : Z) (r r' : string) :
  0 <= a <= 9 -> 0 <= b <= 9 ->
  str_lt (String (digit_char a) r) (String (digit_char b) r')
  = field_lt a b (str_lt r r').
Proof.
  intros Ha Hb. cbn [str_lt]. rewrite !nat_of_digit_char by assumption.
  unfold field_lt.
  destruct (Nat.ltb_spec (48 + Z.to_nat a) (48 + Z.to_nat b)),
           (Nat.ltb_spec (48 + Z.to_nat b) (48 + Z.to_nat a)),
           (Z.ltb_spec a b), (Z.ltb_spec b a); try reflexivity; lia.
Qed.

Lemma str_lt_same_head (c : ascii) (r r' : string) :
  str_lt (String c r) (String c r') = str_lt r r'.
Proof. cbn [str_lt]. now rewrite Nat.ltb_irrefl. Qed.

Lemma field_lt_digits (base x1 x0 y1 y0 : Z) (rest : bool) :
  0 <= x0 < base -> 0 <= y0 < base ->
  field_lt x1 y1 (field_lt x0 y0 rest)
  = field_lt (base * x1 + x0) (base * y1 + y0) rest.
Proof.
  intros Hx Hy. unfold field_lt.
  destruct (Z.ltb_spec x1 y1), (Z.ltb_spec y1 x1),
           (Z.ltb_spec x0 y0), (Z.ltb_spec y0 x0),
           (Z.ltb_spec (base * x1 + x0) (base * y1 + y0)),
           (Z.ltb_spec (base * y1 + y0) (base * x1 + x0));
    try reflexivity; nia.
Qed.

Lemma str_lt_pad2 (v v' : Z) (r r' : string) :
  0 <= v <= 99 -> 0 <= v' <= 99 ->
  str_lt (pad2 v r) (pad2 v' r') = field_lt v v' (str_lt r r').
Proof.
  intros Hv Hv'. unfold pad2.
  rewrite !str_lt_digits by (Z.div_mod_to_equations; lia).
  rewrite (field_lt_digits 10) by (Z.div_mod_to_equations; lia).
  f_equal; Z.div_mod_to_equations; lia.
Qed.

Lemma str_lt_pad4 (v v' : Z) (r r' : string) :
  0 <= v <= 9999 -> 0 <= v' <= 9999 ->
  str_lt (pad4 v r) (pad4 v' r') = field_lt v v' (str_lt r r').
Proof.
  intros Hv Hv'. unfold pad4.
  rewrite !str_lt_digits by (Z.div_mod_to_equations; lia).
  rewrite (field_lt_digits 10 (v / 10 mod 10)) by (Z.div_mod_to_equations; lia).
  rewrite (field_lt_digits 100 (v / 100 mod 10)) by (Z.div_mod_to_equations; lia).
  rewrite (field_lt_digits 1000 (v / 1000)) by (Z.div_mod_to_equations; lia).
  f_equal; Z.div_mod_to_equations; lia.
Qed.

Lemma str_lt_iso_format (a b : datetime) :
  valid_datetime a = true -> valid_datetime b = true ->
  str_lt (iso_format a) (iso_format b) = earlierb a b.
Proof.
  intros Ha Hb.
  pose proof (valid_datetime_bounds a Ha) as (A1 & A2 & A3 & A4 & A5 & A6).
  pose proof (valid_datetime_bounds b Hb) as (B1 & B2 & B3 & B4 & B5 & B6).
  pose proof (days_in_month_le (year a) (month a)).
  pose proof (days_in_month_le (year b) (month b)).
  unfold iso_format, earlierb.
  rewrite str_lt_pad4, str_lt_same_head by lia.
  rewrite str_lt_pad2, str_lt_same_head by lia.
  rewrite str_lt_pad2, str_lt_same_head by lia.
  rewrite str_lt_pad2, str_lt_same_head by lia.
  rewrite str_lt_pad2, str_lt_same_head by lia.
  rewrite str_lt_pad2 by lia.
  reflexivity.
Qed.

Lemma days_before_year_next (y : Z) :
  days_before_year (y + 1)
  = days_before_year y + (if is_leap y then 366 else 365).
Proof.
  unfold days_before_year, is_leap.
  replace (y + 1 - 1) with y by lia.
  destruct (Z.eqb_spec (y mod 4) 0), (Z.eqb_spec (y mod 100) 0),
           (Z.eqb_spec (y mod 400) 0); cbn [andb orb negb];
    Z.div_mod_to_equations; lia.
Qed.

Lemma days_before_year_mono (y y' : Z) :
  y <= y' -> days_before_year y <= days_before_year y'.
Proof.
  intros H. unfold days_before_year. Z.div_mod_to_equations. lia.
Qed.

Lemma days_before_month_aux_mono (y : Z) (n n' : nat) :
  (n <= n')%nat -> days_before_month_aux y n <= days_before_month_aux y n'.
Proof.
  induction 1 as [|n' _ IH]; [lia|].
  cbn [days_before_month_aux].
  pose proof (days_in_month_le y (Z.of_nat (S n'))). lia.
Qed.

Lemma days_before_month_aux_nonneg (y : Z) (n : nat) :
  0 <= days_before_month_aux y n.
Proof. apply (days_before_month_aux_mono y 0 n). lia. Qed.

Lemma days_in_year (y : Z) :
  days_before_month_aux y 12 = if is_leap y then 366 else 365.
Proof.
  cbn [days_before_month_aux]. unfold days_in_month. simpl.
  destruct (is_leap y); reflexivity.
Qed.

Lemma month_ends (y m : Z) :
  1 <= m <= 12 ->
  days_before_month y m + days_in_month y m
  = days_before_month_aux y (Z.to_nat m).
Proof.
  intros H. unfold days_before_month.
  replace (Z.to_nat m) with (S (Z.to_nat (m - 1))) by lia.
  cbn [days_before_month_aux].
  replace (Z.of_nat (S (Z.to_nat (m - 1)))) with m by lia.
  reflexivity.
Qed.

Lemma toordinal_mono (a b : datetime) :
  valid_datetime a = true -> valid_datetime b = true ->
  year a < year b
  \/ (year a = year b
      /\ (month a < month b \/ (month a = month b /\ day a < day b))) ->
  toordinal a < toordinal b.
Proof.
  intros Ha Hb.
  pose proof (valid_datetime_bounds a Ha) as (A1 & A2 & A3 & _).
  pose proof (valid_datetime_bounds b Hb) as (B1 & B2 & B3 & _).
  unfold toordinal.
  pose proof (month_ends (year a) (month a) A2) as Ea.
  pose proof (days_before_month_aux_nonneg (year b) (Z.to_nat (month b - 1))) as Nb.
  fold (days_before_month (year b) (month b)) in Nb.
  intros [Hy | [Hy [Hm | [Hm Hd]]]].
  - pose proof (days_before_month_aux_mono (year a) (Z.to_nat (month a)) 12
                  ltac:(lia)) as M.
    rewrite days_in_year in M.
    pose proof (days_before_year_next (year a)) as N.
    pose proof (days_before_year_mono (year a + 1) (year b) ltac:(lia)).
    lia.
  - rewrite <- Hy in *.
    pose proof (days_before_month_aux_mono (year a) (Z.to_nat (month a))
                  (Z.to_nat (month b - 1)) ltac:(lia)) as M.
    fold (days_before_month (year a) (month b)) in M. lia.
  - rewrite <- Hy, <- Hm in *. lia.
Qed.

Lemma earlierb_earlier (a b : datetime) : earlierb a b = true <-> earlier a b.
Proof.
  unfold earlierb, earlier, field_lt.
  destruct (Z.ltb_spec (year a) (year b)), (Z.ltb_spec (year b) (year a)),
           (Z.ltb_spec (month a) (month b)), (Z.ltb_spec (month b) (month a)),
           (Z.ltb_spec (day a) (day b)), (Z.ltb_spec (day b) (day a)),
           (Z.ltb_spec (hour a) (hour b)), (Z.ltb_spec (hour b) (hour a)),
           (Z.ltb_spec (minute a) (minute b)), (Z.ltb_spec (minute b) (minute a)),
           (Z.ltb_spec (second a) (second b)), (Z.ltb_spec (second b) (second a));
    split; intros; try discriminate; try reflexivity; lia.
Qed.

Lemma earlier_seconds (a b : datetime) :
  valid_datetime a = true -> valid_datetime b = true ->
  earlier a b -> seconds_of a < seconds_of b.
Proof.
  intros Ha Hb He.
  pose proof (valid_datetime_bounds a Ha) as (_ & _ & _ & A4 & A5 & A6).
  pose proof (valid_datetime_bounds b Hb) as (_ & _ & _ & B4 & B5 & B6).
  unfold seconds_of.
  assert (Hcase :
    (year a < year b
     \/ (year a = year b
         /\ (month a < month b \/ (month a = month b /\ day a < day b))))
    \/ (year a = year b /\ month a = month b /\ day a = day b
        /\ hour a * 3600 + minute a * 60 + second a
           < hour b * 3600 + minute b * 60 + second b))
    by (unfold earlier in He; lia).
  destruct Hcase as [Hd | (Ey & Em & Ed & Ht)].
  - pose proof (toordinal_mono a b Ha Hb Hd). lia.
  - unfold toordinal. rewrite Ey, Em, Ed. lia.
Qed.

(** X14: for dates written with the padding of the mask, the order of the
    strings, which the window test uses, is the order in time, which the
    age uses: one string sorts before the other exactly when its date is
    the earlier.  So an item inside such a window never has a negative
    age.  Without the padding, which [check_date] lets through, the two
    orders part: against the end date [2020-9-1T0:0:0Z] an item of the
    fifth of October of that year is inside the window. *)
Theorem padded_order_is_time_order (a b : datetime) :
  valid_datetime a = true -> valid_datetime b = true ->
  (str_lt (iso_format a) (iso_format b) = true
   <-> seconds_of a < seconds_of b)
  /\ (str_lt (iso_format a) (iso_format b) = true -> 0 <= timedelta_days b a)
  /\ (check_date "2020-9-1T0:0:0Z" = Ok "2020-9-1T0:0:0Z"
      /\ inside DEFAULT_START_DATE "2020-9-1T0:0:0Z"
           [("created_at", VStr "2020-10-05T00:00:00Z")] = true).
Proof.
  intros Ha Hb.
  assert (Hiff : str_lt (iso_format a) (iso_format b) = true
                 <-> seconds_of a < seconds_of b).
  { rewrite (str_lt_iso_format a b Ha Hb), earlierb_earlier. split.
    - now apply earlier_seconds.
    - intros Hlt.
      assert (Htri : earlier a b \/ earlier b a
                     \/ (year a = year b /\ month a = month b /\ day a = day b
                         /\ hour a = hour b /\ minute a = minute b
                         /\ second a = second b))
        by (unfold earlier; lia).
      destruct Htri as [H | [H | H]]; [exact H| |].
      + pose proof (earlier_seconds b a Hb Ha H). lia.
      + destruct H as (E1 & E2 & E3 & E4 & E5 & E6).
        unfold seconds_of, toordinal in Hlt.
        rewrite E1, E2, E3, E4, E5, E6 in Hlt. lia. }
  split; [exact Hiff|]. split; [|split; reflexivity].
  intros H. apply Hiff in H. unfold timedelta_days.
  apply Z.div_pos; lia.
Qed.

Lemma padded_order_is_time_order_witness :
  0 <= timedelta_days (mkdt 2021 3 1 0 0 0) (mkdt 2021 2 9 0 0 0).
Proof.
  apply (proj1 (proj2 (padded_order_is_time_order (mkdt 2021 2 9 0 0 0)
                         (mkdt 2021 3 1 0 0 0) eq_refl eq_refl))).
  reflexivity.
Defined.

(** ** get_top_contributors: where the dates go *)

Lemma fetch_loop_result_ignores_log (net : server) (login password : string)
    (fuel : nat) :
  forall url items_list sent1 sent2,
    option_map snd (fetch_loop net login password fuel url items_list sent1)
    = option_map snd (fetch_loop net login password fuel url items_list sent2).
Proof.
  induction fuel as [|fuel IH]; intros url items_list sent1 sent2;
    [reflexivity|].
  cbn [fetch_loop]. destruct (truthy (VStr url)); [|reflexivity].
  destruct (consume (net url login password) items_list) as [[url' items']|e];
    [apply IH | reflexivity].
Qed.

Lemma fetch_result_same_first_page (net : server) (login password : string)
    (fuel : nat) (url1 url2 : string) :
  truthy (VStr url1) = true -> truthy (VStr url2) = true ->
  net url1 login password = net url2 login password ->
  option_map snd (get_items_list net fuel url1 login password)
  = option_map snd (get_items_list net fuel url2 login password).
Proof.
  intros H1 H2 Hnet. unfold get_items_list.
  destruct fuel as [|fuel]; [reflexivity|].
  cbn [fetch_loop]. rewrite H1, H2, Hnet.
  destruct (consume (net url2 login password) []) as [[url' items']|e];
    [apply fetch_loop_result_ignores_log | reflexivity].
Qed.

Lemma commits_url_truthy (owner repo start_date end_date branch : string) :
  truthy (VStr (commits_url owner repo start_date end_date branch)) = true.
Proof. reflexivity. Qed.

(** X15: [get_top_contributors] uses its two dates in two places only, the
    query string of the first request and the second line it prints.  So
    against a server that answers that request alike whatever the dates
    in it, the outcome is one and the same tally for every window, shown
    under the heading of the window asked for. *)
Theorem dates_reach_only_url_and_heading (net : server) (fuel : nat)
    (owner repo branch login password : string) :
  (forall s e s' e',
      net (commits_url owner repo s e branch) login password
      = net (commits_url owner repo s' e' branch) login password) ->
  exists outcome : option (result (tally * nat)),
    forall start_date end_date,
      get_top_contributors net fuel owner repo start_date end_date branch
        login password
      = option_map
          (fun r => st <- r ;;
                    Ok (contributors_report owner repo start_date end_date
                          branch st))
          outcome.
Proof.
  intros Hnet.
  exists (option_map
            (fun r => commits <- r ;; count_commits ([], O) commits)
            (option_map snd
               (get_items_list net fuel (commits_url owner repo "" "" branch)
                  login password))).
  intros start_date end_date. unfold get_top_contributors.
  rewrite <- (fetch_result_same_first_page net login password fuel
                (commits_url owner repo start_date end_date branch)
                (commits_url owner repo "" "" branch)
                (commits_url_truthy _ _ _ _ _) (commits_url_truthy _ _ _ _ _)
                (Hnet _ _ _ _)).
  destruct (get_items_list net fuel
              (commits_url owner repo start_date end_date branch) login password)
    as [[sent0 r]|]; [|reflexivity].
  cbn [option_map snd]. f_equal.
  destruct r as [commits|e]; [|reflexivity]. cbn [bind].
  destruct (count_commits ([], O) commits); reflexivity.
Qed.

Lemma dates_reach_only_url_and_heading_witness :
  exists outcome : option (result (tally * nat)),
    forall start_date end_date,
      get_top_contributors (one_page 200 (Some (VList [commit_of_1999]))) 2
        "o" "r" start_date end_date "master" "" ""
      = option_map
          (fun r => st <- r ;;
                    Ok (contributors_report "o" "r" start_date end_date
                          "master" st))
          outcome.
Proof.
  apply (dates_reach_only_url_and_heading
           (one_page 200 (Some (VList [commit_of_1999]))) 2 "o" "r" "master" "" "").
  reflexivity.
Defined.

(** ** check_date, then get_stats *)

Lemma check_date_parses (s : string) :
  check_date s = Ok s -> exists d, strptime s = Some d.
Proof.
  unfold check_date. destruct (strptime s) as [d|]; [eauto | discriminate].
Qed.

(** X16: with an end date that [check_date] has let through, the loop of
    [get_stats] cannot fail on items that are objects whose [created_at]
    is a date [check_date] would let through as well: it counts every such
    list to the end, whatever the other fields of the items hold. *)
Theorem dated_items_are_counted (start_date end_date : string)
    (items : list value) (s0 : stats) :
  check_date end_date = Ok end_date ->
  Forall (fun item =>
            exists kvs c,
              item = VDict kvs
              /\ dict_get kvs "created_at" VNone = VStr c
              /\ check_date c = Ok c) items ->
  exists s, count_items start_date end_date s0 items = Ok s.
Proof.
  intros He Hall. apply check_date_parses in He. destruct He as [de He].
  destruct (count_items_cases start_date end_date items s0)
    as [[_ Hs] | [Hd _]]; [exact Hs|].
  exfalso.
  assert (Ht : forallb (item_defined start_date end_date) items = true).
  { apply forallb_forall. intros item Hin.
    rewrite Forall_forall in Hall.
    destruct (Hall item Hin) as (kvs & c & -> & Hc & Hp).
    apply check_date_parses in Hp. destruct Hp as [dc Hp].
    unfold item_defined, age_days. rewrite Hc, Hp, He.
    now destruct (_ && _). }
  congruence.
Qed.

Lemma dated_items_are_counted_witness :
  exists s,
    count_items DEFAULT_START_DATE example_end (mkstats zero zero)
      [VDict [("created_at", VStr "2021-02-09T00:00:00Z"); ("state", VInt 7)]]
    = Ok s.
Proof.
  apply (dated_items_are_counted DEFAULT_START_DATE example_end).
  - reflexivity.
  - constructor; [|constructor].
    exists [("created_at", VStr "2021-02-09T00:00:00Z"); ("state", VInt 7)],
           "2021-02-09T00:00:00Z".
    repeat split.
Defined.
